(** * rclone-golib: progress decoding, transfer store, retry and error
    classification.

    A shallow embedding of the Go package [rclonelib]:
    - [parseSize] and the float64 arithmetic it relies on (rclone.go);
    - the [bufio.Scanner] driven by the custom split function of
      [parseRcloneOutput], and the stats regular expression (rclone.go);
    - the [Manager] transfer store (manager source, unnamed part 2);
    - [Executor.Execute]'s argument vector (rclone.go);
    - [Executor.ExecuteWithRetry] (retry.go);
    - [ClassifyError] (errors source, unnamed part 1).

    Go strings and byte slices are modelled as Rocq [string]s / lists of
    [ascii] (one [ascii] per byte). *)

From Stdlib Require Import ZArith Ascii String List Bool Lia.
From stdpp Require Import base gmap strings list.

Open Scope Z_scope.

(* ------------------------------------------------------------------ *)
(** ** Bytes and ASCII helpers ([strings] package, ASCII behaviour) *)

Definition byte_code (c : ascii) : Z := Z.of_nat (nat_of_ascii c).

Definition is_lower (c : ascii) : bool :=
  (97 <=? byte_code c) && (byte_code c <=? 122).

Definition is_upper (c : ascii) : bool :=
  (65 <=? byte_code c) && (byte_code c <=? 90).

Definition is_digit (c : ascii) : bool :=
  (48 <=? byte_code c) && (byte_code c <=? 57).

Definition digit_val (c : ascii) : Z := byte_code c - 48.

(** [unicode.ToUpper] / [unicode.ToLower] on an ASCII byte; bytes of
    multi-byte runes are left alone (the model covers ASCII text). *)
Definition upper_char (c : ascii) : ascii :=
  if is_lower c then ascii_of_nat (Z.to_nat (byte_code c - 32)) else c.

Definition lower_char (c : ascii) : ascii :=
  if is_upper c then ascii_of_nat (Z.to_nat (byte_code c + 32)) else c.

(** [strings.ToUpper] / [strings.ToLower] on ASCII text. *)
Definition to_upper (s : string) : string :=
  string_of_list_ascii (map upper_char (list_ascii_of_string s)).

Definition to_lower (s : string) : string :=
  string_of_list_ascii (map lower_char (list_ascii_of_string s)).

(** The ASCII space set of [strings.TrimSpace]: \t \n \v \f \r and ' '. *)
Definition ascii_space (c : ascii) : bool :=
  let n := byte_code c in
  ((9 <=? n) && (n <=? 13)) || (n =? 32).

Fixpoint drop_spaces (l : list ascii) : list ascii :=
  match l with
  | c :: l' => if ascii_space c then drop_spaces l' else l
  | [] => []
  end.

(** [strings.TrimSpace] on ASCII text; the Unicode white space of
    multi-byte runes (U+0085, U+00A0, ...) is not trimmed. *)
Definition trim_space (s : string) : string :=
  string_of_list_ascii
    (rev (drop_spaces (rev (drop_spaces (list_ascii_of_string s))))).

(** Every byte of [s] is below 128: on such text [strings.TrimSpace],
    [strings.ToUpper] and [strings.ToLower] see ASCII characters only,
    on which the three definitions above are exact. *)
Definition is_ascii (s : string) : bool :=
  forallb (fun c => Nat.ltb (nat_of_ascii c) 128) (list_ascii_of_string s).

(** [strings.TrimSuffix]. *)
Definition trim_suffix (s suf : string) : string :=
  let n := String.length s in
  let k := String.length suf in
  if (k <=? n)%nat && String.eqb (substring (n - k) k s) suf
  then substring 0 (n - k) s else s.

(** [strings.Contains]. *)
Fixpoint contains (s sub : string) : bool :=
  String.prefix sub s ||
  match s with
  | EmptyString => false
  | String _ s' => contains s' sub
  end.

(* ------------------------------------------------------------------ *)
(** ** float64

    A finite IEEE binary64 value is [f_m * 2 ^ f_e] with [|f_m| < 2^53].
    Values are kept normalised ([f_m] odd, or [0] with exponent [0]) so
    that equal numbers are equal records. Results are rounded to nearest,
    ties to even, on 53 significant bits. Overflow to infinity, the
    subnormal range, NaN and the sign of zero are outside the model;
    every value met by the theorems below is a normal number. *)

Record f64 := F64 { f_m : Z; f_e : Z }.

Definition f64_norm (m e : Z) : f64 :=
  if m =? 0 then F64 0 0
  else let tz := Z.log2 (Z.land m (- m)) in F64 (Z.shiftr m tz) (e + tz).

(** Round the positive rational [p / q] to 53 significant bits, nearest
    even; returns the significand and the exponent. *)
Definition round_pos (p q : Z) : Z * Z :=
  let e0 := Z.log2 p - Z.log2 q - 53 in
  let num := p * 2 ^ (Z.max 0 (- e0)) in
  let den0 := q * 2 ^ (Z.max 0 e0) in
  let '(e, den) :=
    if 2 ^ 53 <=? num / den0 then (e0 + 1, den0 * 2) else (e0, den0) in
  let m := num / den in
  let r := num mod den in
  let m' := if (den <? 2 * r) || ((2 * r =? den) && Z.odd m)
            then m + 1 else m in
  (m', e).

(** The float64 nearest to [(-1)^neg * p / q], for [p >= 0], [q > 0]. *)
Definition f64_round (neg : bool) (p q : Z) : f64 :=
  if p =? 0 then F64 0 0
  else let '(m, e) := round_pos p q in
       f64_norm (if neg then - m else m) e.

(** [float64(n)] for a Go integer [n]. *)
Definition f64_of_Z (n : Z) : f64 := f64_round (n <? 0) (Z.abs n) 1.

(** Float multiplication [a * b]. *)
Definition f64_mul (a b : f64) : f64 :=
  let p := f_m a * f_m b in
  if p =? 0 then F64 0 0
  else let r := f64_round (p <? 0) (Z.abs p) 1 in
       F64 (f_m r) (f_e r + f_e a + f_e b).

(** [a <= b] on float64 values. *)
Definition f64_leb (a b : f64) : bool :=
  let e := Z.min (f_e a) (f_e b) in
  f_m a * 2 ^ (f_e a - e) <=? f_m b * 2 ^ (f_e b - e).

(** [math.Min(a, b)]. *)
Definition f64_min (a b : f64) : f64 := if f64_leb a b then a else b.

(** The conversion [int64(x)] (and [time.Duration(x)]): truncation toward
    zero. Go leaves out-of-range conversions implementation-defined; the
    model returns the mathematical truncation there. *)
Definition f64_trunc (x : f64) : Z :=
  if 0 <=? f_e x then f_m x * 2 ^ f_e x
  else Z.quot (f_m x) (2 ^ (- f_e x)).

(* ------------------------------------------------------------------ *)
(** ** [strconv.ParseFloat(s, 64)]

    Decimal syntax: optional sign, digits with at most one '.', at least
    one digit, optional exponent [e]/[E] with optional sign and at least
    one digit. The result is the correctly rounded float64; a value that
    rounds beyond the float64 range is a range error. The hexadecimal,
    [inf]/[nan] and underscore forms that Go also accepts are not modelled
    (reported as syntax errors); the regular expression that feeds
    [parseSize] only ever captures digits and dots. *)

Fixpoint scan_mantissa (s : list ascii) (acc : Z) (nd frac : nat) (dot : bool)
  : Z * nat * nat * list ascii :=
  match s with
  | c :: s' =>
      if is_digit c then
        scan_mantissa s' (10 * acc + digit_val c) (S nd)
          (if dot then S frac else frac) dot
      else if Ascii.eqb c "." && negb dot then
        scan_mantissa s' acc nd frac true
      else (acc, nd, frac, s)
  | [] => (acc, nd, frac, [])
  end.

Fixpoint scan_digits (s : list ascii) (acc : Z) (nd : nat) : Z * nat * list ascii :=
  match s with
  | c :: s' =>
      if is_digit c then scan_digits s' (10 * acc + digit_val c) (S nd)
      else (acc, nd, s)
  | [] => (acc, nd, [])
  end.

Definition scan_sign (s : list ascii) : bool * list ascii :=
  match s with
  | c :: s' =>
      if Ascii.eqb c "-" then (true, s')
      else if Ascii.eqb c "+" then (false, s') else (false, s)
  | [] => (false, [])
  end.

(** Exponent part: [Some x] for a well-formed (possibly empty) exponent
    that ends the input. *)
Definition scan_exponent (s : list ascii) : option Z :=
  match s with
  | [] => Some 0
  | c :: s' =>
      if Ascii.eqb c "e" || Ascii.eqb c "E" then
        let '(neg, s'') := scan_sign s' in
        let '(x, nd, rest) := scan_digits s'' 0 0 in
        match nd, rest with
        | S _, [] => Some (if neg then - x else x)
        | _, _ => None
        end
      else None
  end.

Definition parse_float (s : string) : option f64 :=
  let '(neg, s1) := scan_sign (list_ascii_of_string s) in
  let '(mant, nd, frac, rest) := scan_mantissa s1 0 0 0 false in
  match nd with
  | O => None
  | S _ =>
      match scan_exponent rest with
      | None => None
      | Some x =>
          let e10 := x - Z.of_nat frac in
          let v := if 0 <=? e10 then f64_round neg (mant * 10 ^ e10) 1
                   else f64_round neg mant (10 ^ (- e10)) in
          if (f_m v =? 0) || (Z.log2 (Z.abs (f_m v)) + f_e v <? 1024)
          then Some v else None
      end
  end.

(* ------------------------------------------------------------------ *)
(** ** [parseSize] (rclone.go) *)

Definition unit_multiplier (unit : string) : Z :=
  if String.eqb unit "K" then 1024
  else if String.eqb unit "M" then 1024 * 1024
  else if String.eqb unit "G" then 1024 * 1024 * 1024
  else if String.eqb unit "T" then 1024 * 1024 * 1024 * 1024
  else if String.eqb unit "P" then 1024 * 1024 * 1024 * 1024 * 1024
  else 1.

Definition parseSize (value unit : string) : Z :=
  match parse_float value with
  | None => 0
  | Some val =>
      let unit := to_upper (trim_space unit) in
      let unit := trim_suffix unit "B" in
      let unit := trim_suffix unit "I" in
      let multiplier := unit_multiplier unit in
      f64_trunc (f64_mul val (f64_of_Z multiplier))
  end.

(* ------------------------------------------------------------------ *)
(** ** The split function of [parseRcloneOutput] (rclone.go)

    [split data atEOF] returns [(advance, token)]; [None] is Go's nil
    token ("request more data"). *)

Definition CR : ascii := ascii_of_nat 13.
Definition LF : ascii := ascii_of_nat 10.

Definition is_crlf (c : ascii) : bool := Ascii.eqb c CR || Ascii.eqb c LF.

(** [strings.IndexAny(string(data), "\r\n")] (byte index). *)
Fixpoint index_crlf (data : list ascii) : option nat :=
  match data with
  | [] => None
  | c :: data' =>
      if is_crlf c then Some O
      else option_map S (index_crlf data')
  end.

Definition split (data : list ascii) (atEOF : bool) : nat * option (list ascii) :=
  if atEOF && (length data =? 0)%nat then (O, None)
  else
    match index_crlf data with
    | Some i =>
        let token := firstn i data in
        let advance := S i in
        let advance :=
          if (advance <? length data)%nat
             && Ascii.eqb (nth i data "000"%char) CR
             && Ascii.eqb (nth advance data "000"%char) LF
          then S advance else advance in
        (advance, Some token)
    | None =>
        if atEOF then (length data, Some data) else (O, None)
    end.

(* ------------------------------------------------------------------ *)
(** ** [bufio.Scanner]

    The scanner of [parseRcloneOutput]: [scanner.Buffer(buf, 1024*1024)]
    with [cap(buf) = 64*1024], so the buffer starts with length 65536 and
    may grow (doubling) up to the maximum token size 1048576.

    The reader is the list of results its successive [Read] calls
    deliver (a pipe hands over whatever the subprocess has written so
    far); a [Read] into a buffer with less free space than the next chunk
    takes a prefix and leaves the rest for the next call. When the list is
    exhausted the reader reports [io.EOF]. Empty chunks are reads of zero
    bytes, which [Scan] retries. *)

Record scanner := Scanner {
  sc_len : Z;                 (* len(s.buf) *)
  sc_start : Z;               (* s.start *)
  sc_end : Z;                 (* s.end *)
  sc_data : list ascii;       (* s.buf[s.start:s.end] *)
  sc_reader : list (list ascii);
  sc_eof : bool;              (* s.err == io.EOF *)
  sc_done : bool              (* s.done, or a fatal error *)
}.

Definition maxTokenSize : Z := 1024 * 1024.

Definition new_scanner (reader : list (list ascii)) : scanner :=
  Scanner (64 * 1024) 0 0 [] reader false false.

(** [s.advance(n)]. *)
Definition sc_advance (st : scanner) (n : nat) : scanner :=
  Scanner (sc_len st) (sc_start st + Z.of_nat n) (sc_end st)
    (skipn n (sc_data st)) (sc_reader st) (sc_eof st) (sc_done st).

(** Shifting the live data to the start of the buffer. *)
Definition sc_shift (st : scanner) : scanner :=
  Scanner (sc_len st) 0 (sc_end st - sc_start st) (sc_data st)
    (sc_reader st) (sc_eof st) (sc_done st).

(** One [Read(s.buf[s.end:len(s.buf)])] (zero-byte reads skipped). *)
Fixpoint sc_read (st : scanner) (rd : list (list ascii)) : scanner :=
  match rd with
  | [] => Scanner (sc_len st) (sc_start st) (sc_end st) (sc_data st) []
            true (sc_done st)
  | [] :: rd' => sc_read st rd'
  | chunk :: rd' =>
      let n := Z.to_nat (Z.min (sc_len st - sc_end st) (Z.of_nat (length chunk))) in
      let rest := skipn n chunk in
      Scanner (sc_len st) (sc_start st) (sc_end st + Z.of_nat n)
        (sc_data st ++ firstn n chunk)
        (match rest with [] => rd' | _ => rest :: rd' end)
        false (sc_done st)
  end.

(** The loop of [Scanner.Scan]: returns the token (if any) and the new
    scanner. [fuel] bounds the iterations (see [scan_fuel]). *)
Fixpoint scan_loop (fuel : nat) (st : scanner) : option (list ascii) * scanner :=
  match fuel with
  | O => (None, st)
  | S fuel' =>
      let tried :=
        if (sc_start st <? sc_end st) || sc_eof st
        then let '(adv, tok) := split (sc_data st) (sc_eof st) in
             (sc_advance st adv, tok)
        else (st, None) in
      match tried with
      | (st, Some tok) => (Some tok, st)
      | (st, None) =>
          if sc_eof st then
            (None, Scanner (sc_len st) 0 0 [] (sc_reader st) true true)
          else
            let st :=
              if (0 <? sc_start st)
                 && ((sc_end st =? sc_len st) || (sc_len st / 2 <? sc_start st))
              then sc_shift st else st in
            if sc_end st =? sc_len st then
              if maxTokenSize <=? sc_len st then
                (* bufio.ErrTooLong *)
                (None, Scanner (sc_len st) (sc_start st) (sc_end st) (sc_data st)
                         (sc_reader st) (sc_eof st) true)
              else
                let newSize := Z.min (sc_len st * 2) maxTokenSize in
                let st := sc_shift st in
                let st := Scanner newSize (sc_start st) (sc_end st) (sc_data st)
                            (sc_reader st) (sc_eof st) (sc_done st) in
                scan_loop fuel' (sc_read st (sc_reader st))
            else scan_loop fuel' (sc_read st (sc_reader st))
      end
  end.

Definition total_bytes (rd : list (list ascii)) : nat :=
  fold_right (fun c n => (length c + n)%nat) O rd.

(** An iteration bound: every loop round either returns, reads at least
    one byte, consumes a chunk, records EOF, or grows the buffer (at most
    four times). *)
Definition scan_fuel (rd : list (list ascii)) : nat :=
  (2 * total_bytes rd + length rd + 16)%nat.

(** Repeated [scanner.Scan()] calls, collecting [scanner.Bytes()]. *)
Fixpoint scan_tokens (fuel : nat) (loop_fuel : nat) (st : scanner) : list (list ascii) :=
  match fuel with
  | O => []
  | S fuel' =>
      if sc_done st then []
      else match scan_loop loop_fuel st with
           | (Some tok, st') => tok :: scan_tokens fuel' loop_fuel st'
           | (None, _) => []
           end
  end.

(** The tokens the scanner of [parseRcloneOutput] yields on a stream
    delivered as the read results [rd]. *)
Definition tokens (rd : list (list ascii)) : list (list ascii) :=
  scan_tokens (scan_fuel rd) (scan_fuel rd) (new_scanner rd).

(** Repeated splitting of data that is wholly in the buffer before EOF
    is seen: tokens up to each terminator, then the remainder. *)
Fixpoint split_all (fuel : nat) (data : list ascii) : list (list ascii) :=
  match fuel with
  | O => []
  | S fuel' =>
      match split data false with
      | (adv, Some tok) => tok :: split_all fuel' (skipn adv data)
      | (_, None) => match data with [] => [] | _ => [data] end
      end
  end.

(** The logical lines of a stream as the specification describes them:
    [\r], [\n] or the pair [\r\n] ends a line, and non-empty trailing
    bytes form a final line. [cur] is the current line, reversed. *)
Fixpoint spec_lines_from (s cur : list ascii) : list (list ascii) :=
  match s with
  | [] => match cur with [] => [] | _ => [rev cur] end
  | c :: s' =>
      if Ascii.eqb c CR then
        match s' with
        | c' :: s'' =>
            if Ascii.eqb c' LF then rev cur :: spec_lines_from s'' []
            else rev cur :: spec_lines_from s' []
        | [] => [rev cur]
        end
      else if Ascii.eqb c LF then rev cur :: spec_lines_from s' []
      else spec_lines_from s' (c :: cur)
  end.

Definition spec_lines (s : list ascii) : list (list ascii) := spec_lines_from s [].

(* ------------------------------------------------------------------ *)
(** ** The stats regular expression

    [regexp.FindStringSubmatch] has leftmost-first semantics: the match
    starting at the leftmost position, and among those the one a
    backtracking matcher finds first (greedy quantifiers try longer runs
    first). The program is a sequence of instructions: a single byte
    class, a greedy repetition of a byte class (every quantifier of the
    stats expression applies to a single class), or [RSave n], which
    records the current position in capture slot [n] as RE2 does. *)

Inductive rinstr :=
  | RByte (cls : ascii -> bool)
  | RRep (cls : ascii -> bool) (lo : nat) (hi : option nat)
  | RSave (slot : nat).

(** Number of leading bytes of [s] in [cls]. *)
Fixpoint run_len (cls : ascii -> bool) (s : list ascii) : nat :=
  match s with
  | c :: s' => if cls c then S (run_len cls s') else O
  | [] => O
  end.

(** Try [f n], [f (n-1)], ..., [f lo], returning the first success. *)
Fixpoint try_down {A} (f : nat -> option A) (n lo : nat) : option A :=
  match f n with
  | Some a => Some a
  | None =>
      match n with
      | O => None
      | S n' => if (lo <=? n')%nat then try_down f n' lo else None
      end
  end.

(** Match [prog] at position [pos], where [s] is the input from [pos]
    on; [slots] lists the recorded capture positions, newest first.
    Returns the end position and the slots. *)
Fixpoint rmatch (prog : list rinstr) (s : list ascii) (pos : nat)
    (slots : list (nat * nat)) : option (nat * list (nat * nat)) :=
  match prog with
  | [] => Some (pos, slots)
  | RByte cls :: prog' =>
      match s with
      | c :: s' => if cls c then rmatch prog' s' (S pos) slots else None
      | [] => None
      end
  | RRep cls lo hi :: prog' =>
      let n := run_len cls s in
      let n := match hi with Some h => Nat.min h n | None => n end in
      if (lo <=? n)%nat
      then try_down (fun k => rmatch prog' (skipn k s) (pos + k) slots) n lo
      else None
  | RSave k :: prog' => rmatch prog' s pos ((k, pos) :: slots)
  end.

Fixpoint slot_pos (slots : list (nat * nat)) (k : nat) : nat :=
  match slots with
  | (k', p) :: slots' => if (k =? k')%nat then p else slot_pos slots' k
  | [] => O
  end.

(** Leftmost match: the first start position at which [rmatch] succeeds. *)
Fixpoint find_from (prog : list rinstr) (s : list ascii) (pos : nat)
    : option (nat * nat * list (nat * nat)) :=
  match rmatch prog s pos [] with
  | Some (e, slots) => Some (pos, e, slots)
  | None =>
      match s with
      | [] => None
      | _ :: s' => find_from prog s' (S pos)
      end
  end.

Definition substr_pos (s : list ascii) (i j : nat) : string :=
  string_of_list_ascii (firstn (j - i) (skipn i s)).

(** [re.FindStringSubmatch(line)] for a program with [ngroups] groups;
    group [g] spans slots [2g] and [2g+1]. *)
Definition find_string_submatch (prog : list rinstr) (ngroups : nat) (line : string)
    : list string :=
  let s := list_ascii_of_string line in
  match find_from prog s O with
  | None => []
  | Some (b, e, slots) =>
      substr_pos s b e ::
      map (fun g => substr_pos s (slot_pos slots (2 * g)) (slot_pos slots (2 * g + 1)))
        (seq 1 ngroups)
  end.

Definition in_class (cs : string) (c : ascii) : bool :=
  existsb (Ascii.eqb c) (list_ascii_of_string cs).

(** Perl class [\s] of RE2: [\t \n \f \r] and space. *)
Definition re_space (c : ascii) : bool :=
  let n := byte_code c in (n =? 9) || (n =? 10) || (n =? 12) || (n =? 13) || (n =? 32).

Definition re_num (c : ascii) : bool := is_digit c || Ascii.eqb c ".".
Definition re_prefix (c : ascii) : bool := in_class "kKMGTP" c.

Definition re_lit (s : string) : list rinstr :=
  map (fun c => RByte (Ascii.eqb c)) (list_ascii_of_string s).

(** [(?:[kKMGTP]i?[Bb]?)] *)
Definition re_unit : list rinstr :=
  [RByte re_prefix; RRep (Ascii.eqb "i") 0 (Some 1%nat);
   RRep (in_class "Bb") 0 (Some 1%nat)].

(** [Transferred:\s+([0-9.]+)\s*([kKMGTP]i?[Bb]?)\s*/\s*([0-9.]+)\s*([kKMGTP]i?[Bb]?),\s*([0-9]+)%] *)
Definition statsRegex : list rinstr :=
  re_lit "Transferred:" ++
  [RRep re_space 1 None; RSave 2; RRep re_num 1 None; RSave 3;
   RRep re_space 0 None; RSave 4] ++ re_unit ++ [RSave 5;
   RRep re_space 0 None; RByte (Ascii.eqb "/"); RRep re_space 0 None;
   RSave 6; RRep re_num 1 None; RSave 7; RRep re_space 0 None; RSave 8] ++
  re_unit ++ [RSave 9; RByte (Ascii.eqb ","); RRep re_space 0 None;
   RSave 10; RRep is_digit 1 None; RSave 11; RByte (Ascii.eqb "%")].

Definition stats_submatch (line : string) : list string :=
  find_string_submatch statsRegex 5 line.

(* ------------------------------------------------------------------ *)
(** ** Error values

    [ErrText] is an opaque error with its [Error()] text (for instance the
    [*exec.ExitError] of the subprocess); [ErrValidation] is a
    [*ValidationError]; [ErrWrap p e] is [fmt.Errorf(p ++ "%w", e)], whose
    text is [p] followed by the text of [e] and which unwraps to [e]. *)

Inductive error :=
  | ErrText (msg : string)
  | ErrValidation (field msg : string)
  | ErrWrap (prefix : string) (inner : error).

(** [err.Error()] *)
Fixpoint err_string (e : error) : string :=
  match e with
  | ErrText s => s
  | ErrValidation f m => (f +:+ ": " +:+ m)%string
  | ErrWrap p e' => (p +:+ err_string e')%string
  end.

(** [errors.Unwrap] *)
Definition unwrap (e : error) : option error :=
  match e with ErrWrap _ e' => Some e' | _ => None end.

(** [errors.As(err, &valErr)] with [valErr : *ValidationError]. *)
Fixpoint as_validation (e : error) : bool :=
  match e with
  | ErrValidation _ _ => true
  | ErrText _ => false
  | ErrWrap _ e' => as_validation e'
  end.

(** Decimal rendering of a Go [int] ([%d]). *)
Fixpoint digits_rev (fuel : nat) (n : Z) : list ascii :=
  match fuel with
  | O => []
  | S f =>
      let d := ascii_of_nat (Z.to_nat (48 + n mod 10)) in
      if n <? 10 then [d] else d :: digits_rev f (n / 10)
  end.

Definition fmt_int (n : Z) : string :=
  let ds := string_of_list_ascii (rev (digits_rev (S (Z.to_nat (Z.log2 (Z.abs n)))) (Z.abs n))) in
  if n <? 0 then ("-" +:+ ds)%string else ds.

(* ------------------------------------------------------------------ *)
(** ** The transfer store ([Manager])

    [time.Time] values are modelled as [Z] clock readings with [0] the
    zero time; [time.Now()] is the [now] argument of an operation. The
    [Manager] holds [*Transfer] pointers; its map is modelled as a map to
    the records themselves, and [Get]/[GetAll] return the records the map
    holds. *)

(** [type Status string]: any string is a status; the four constants are
    the ones the [Manager] operations set. *)
Definition status := string.

Definition StatusPending : status := "pending".
Definition StatusInProgress : status := "in_progress".
Definition StatusCompleted : status := "completed".
Definition StatusFailed : status := "failed".

Record Transfer := MkTransfer {
  ID : string;
  Source : string;
  Destination : string;
  Status : status;
  Progress : f64;
  BytesTotal : Z;
  BytesCopied : Z;
  StartTime : Z;
  EndTime : Z;
  Error : option error
}.

Record Manager := MkManager {
  transfers : gmap string Transfer;
  order : list string
}.

Definition NewManager : Manager := MkManager ∅ [].

Definition new_transfer (id source destination : string) : Transfer :=
  MkTransfer id source destination StatusPending (f64_of_Z 0) 0 0 0 0 None.

(** [m.Add(id, source, destination)]: the new store and the returned record. *)
Definition Add (m : Manager) (id source destination : string) : Manager * Transfer :=
  let t := new_transfer id source destination in
  (MkManager (<[id := t]> (transfers m)) (order m ++ [id]), t).

(** Update the record [id] with [f] if it exists. *)
Definition with_transfer (m : Manager) (id : string) (f : Transfer -> Transfer) : Manager :=
  match transfers m !! id with
  | Some t => MkManager (<[id := f t]> (transfers m)) (order m)
  | None => m
  end.

Definition Start (m : Manager) (id : string) (now : Z) : Manager :=
  with_transfer m id (fun t =>
    MkTransfer (ID t) (Source t) (Destination t) StatusInProgress (Progress t)
      (BytesTotal t) (BytesCopied t) now (EndTime t) (Error t)).

Definition UpdateProgress (m : Manager) (id : string) (progress : f64)
    (bytesCopied bytesTotal : Z) : Manager :=
  with_transfer m id (fun t =>
    MkTransfer (ID t) (Source t) (Destination t) (Status t) progress
      bytesTotal bytesCopied (StartTime t) (EndTime t) (Error t)).

Definition Complete (m : Manager) (id : string) (now : Z) : Manager :=
  with_transfer m id (fun t =>
    MkTransfer (ID t) (Source t) (Destination t) StatusCompleted (f64_of_Z 100)
      (BytesTotal t) (BytesCopied t) (StartTime t) now (Error t)).

Definition Fail (m : Manager) (id : string) (err : option error) (now : Z) : Manager :=
  with_transfer m id (fun t =>
    MkTransfer (ID t) (Source t) (Destination t) StatusFailed (Progress t)
      (BytesTotal t) (BytesCopied t) (StartTime t) now err).

Definition Get (m : Manager) (id : string) : option Transfer := transfers m !! id.

(** The loop of [GetAll]: the records of the ids in [ids] that exist. *)
Fixpoint collect (ts : gmap string Transfer) (ids : list string) : list Transfer :=
  match ids with
  | [] => []
  | id :: ids' =>
      match ts !! id with
      | Some t => t :: collect ts ids'
      | None => collect ts ids'
      end
  end.

Definition GetAll (m : Manager) : list Transfer := collect (transfers m) (order m).

(** Counts [(pending, inProgress, completed, failed)]. *)
(** The [switch] of [Stats] has no [default]: a status other than the
    four constants is counted by none of them. *)
Definition count_status (s : status) (c : Z * Z * Z * Z) : Z * Z * Z * Z :=
  let '(p, i, co, f) := c in
  if String.eqb s StatusPending then (p + 1, i, co, f)
  else if String.eqb s StatusInProgress then (p, i + 1, co, f)
  else if String.eqb s StatusCompleted then (p, i, co + 1, f)
  else if String.eqb s StatusFailed then (p, i, co, f + 1)
  else (p, i, co, f).

Definition stats_of (ts : gmap string Transfer) : Z * Z * Z * Z :=
  map_fold (fun _ t c => count_status (Status t) c) (0, 0, 0, 0) ts.

Definition Stats (m : Manager) : Z * Z * Z * Z := stats_of (transfers m).

(* ------------------------------------------------------------------ *)
(** ** [parseRcloneOutput] *)

(** The update one line yields, if any: [(percentage, copied, total)]. *)
Definition parse_line (line : string) : option (f64 * Z * Z) :=
  let matches := stats_submatch line in
  if (6 <=? length matches)%nat then
    match parse_float (nth 5 matches "") with
    | Some percentage =>
        let copied := parseSize (nth 1 matches "") (nth 2 matches "") in
        let total := parseSize (nth 3 matches "") (nth 4 matches "") in
        Some (percentage, copied, total)
    | None => None
    end
  else None.

Definition process_line (transferID : string) (m : Manager) (line : string) : Manager :=
  if String.eqb line "" then m
  else match parse_line line with
       | Some (percentage, copied, total) =>
           UpdateProgress m transferID percentage copied total
       | None => m
       end.

(** [parseRcloneOutput(reader, transferID, mgr)] on the stream delivered
    as the read results [rd]. *)
Definition parseRcloneOutput (rd : list (list ascii)) (transferID : string) (m : Manager)
    : Manager :=
  fold_left (process_line transferID) (map string_of_list_ascii (tokens rd)) m.

(* ------------------------------------------------------------------ *)
(** ** [Executor.Execute]: the argument vector (rclone.go) *)

Module RcloneOptions.
Record t := Mk {
  Command : string;
  Source : string;
  Destination : string;
  Flags : list string;
  StatsInterval : string;
  DryRun : bool
}.
End RcloneOptions.

Definition execute_args (opts : RcloneOptions.t) : list string :=
  let args := [RcloneOptions.Command opts; "-v"] in
  let statsInterval :=
    if String.eqb (RcloneOptions.StatsInterval opts) "" then "500ms"
    else RcloneOptions.StatsInterval opts in
  let args := args ++ ["--stats"; statsInterval] in
  let args := if RcloneOptions.DryRun opts then args ++ ["--dry-run"] else args in
  let args := args ++ RcloneOptions.Flags opts in
  args ++ [RcloneOptions.Source opts; RcloneOptions.Destination opts].

(* ------------------------------------------------------------------ *)
(** ** [Executor.ExecuteWithRetry] (retry.go)

    Durations are [time.Duration] nanosecond counts. The cancellation
    context is an oracle: [done_before a] tells whether [ctx.Done()] is
    closed when checked before attempt [a]; [done_during a] whether
    cancellation wins the [select] against the backoff timer after
    attempt [a]; [ctx_err] is [ctx.Err()]. The attempt [e.Execute(...)] is
    the function [exec]: [exec a] is the result of the [a]-th call
    ([None] for success). *)

Record RetryConfig := MkRetryConfig {
  MaxAttempts : Z;
  InitialDelay : Z;
  MaxDelay : Z;
  Multiplier : f64
}.

Definition second : Z := 1000000000.

Definition DefaultRetryConfig : RetryConfig :=
  MkRetryConfig 3 (2 * second) (30 * second) (f64_of_Z 2).

(** The validation at the start of [ExecuteWithRetry]. *)
Definition validate (cfg : RetryConfig) : RetryConfig :=
  let maxAttempts := if MaxAttempts cfg <=? 0 then 1 else MaxAttempts cfg in
  let initialDelay := if InitialDelay cfg <=? 0 then 2 * second else InitialDelay cfg in
  let maxDelay := if MaxDelay cfg <=? 0 then 30 * second else MaxDelay cfg in
  let multiplier :=
    if f64_leb (Multiplier cfg) (f64_of_Z 0) then f64_of_Z 2 else Multiplier cfg in
  MkRetryConfig maxAttempts initialDelay maxDelay multiplier.

Record Context := MkContext {
  done_before : Z -> bool;
  done_during : Z -> bool;
  ctx_err : error
}.

(** [context.Background()]: never cancelled. *)
Definition Background : Context :=
  MkContext (fun _ => false) (fun _ => false) (ErrText "context canceled").

(** [time.Duration(math.Min(float64(delay)*Multiplier, float64(MaxDelay)))] *)
Definition next_delay (cfg : RetryConfig) (delay : Z) : Z :=
  f64_trunc (f64_min (f64_mul (f64_of_Z delay) (Multiplier cfg))
                     (f64_of_Z (MaxDelay cfg))).

(** [fmt.Errorf("... %d attempts: %w", n, lastErr)]; a nil [lastErr]
    renders as [%!w(<nil>)] and wraps nothing. *)
Definition errorf_attempts (what : string) (n : Z) (lastErr : option error) : error :=
  let p := (what +:+ " after " +:+ fmt_int n +:+ " attempts: ")%string in
  match lastErr with
  | Some e => ErrWrap p e
  | None => ErrText (p +:+ "%!w(<nil>)")%string
  end.

(** Outcome of a run: returned error, attempts called, delays slept. *)
Record RetryRun := MkRetryRun {
  run_result : option error;
  run_calls : list Z;
  run_sleeps : list Z
}.

Definition run_cons (a d : option Z) (r : RetryRun) : RetryRun :=
  MkRetryRun (run_result r)
    (match a with Some a => a :: run_calls r | None => run_calls r end)
    (match d with Some d => d :: run_sleeps r | None => run_sleeps r end).

Section Retry.
Variable cfg : RetryConfig.
Variable ctx : Context.
Variable exec : Z -> option error.

Definition finish (lastErr : option error) : RetryRun :=
  MkRetryRun (Some (errorf_attempts "failed" (MaxAttempts cfg) lastErr)) [] [].

(** The [for attempt := 1; attempt <= MaxAttempts; attempt++] loop. *)
Fixpoint retry_loop (fuel : nat) (attempt delay : Z) (lastErr : option error)
    : RetryRun :=
  match fuel with
  | O => finish lastErr
  | S fuel' =>
      if negb (attempt <=? MaxAttempts cfg) then finish lastErr
      else if done_before ctx attempt then
        match lastErr with
        | Some _ =>
            MkRetryRun (Some (errorf_attempts "context cancelled" (attempt - 1) lastErr)) [] []
        | None => MkRetryRun (Some (ctx_err ctx)) [] []
        end
      else
        match exec attempt with
        | None => MkRetryRun None [attempt] []
        | Some err =>
            if attempt =? MaxAttempts cfg then
              (* break *)
              run_cons (Some attempt) None (finish (Some err))
            else if done_during ctx attempt then
              MkRetryRun (Some (errorf_attempts "context cancelled" attempt (Some err)))
                [attempt] []
            else
              run_cons (Some attempt) (Some delay)
                (retry_loop fuel' (attempt + 1) (next_delay cfg delay) (Some err))
        end
  end.
End Retry.

Definition ExecuteWithRetry (cfg0 : RetryConfig) (ctx : Context)
    (exec : Z -> option error) : RetryRun :=
  let cfg := validate cfg0 in
  retry_loop cfg ctx exec (Z.to_nat (MaxAttempts cfg)) 1 (InitialDelay cfg) None.

(* ------------------------------------------------------------------ *)
(** ** [ClassifyError] *)

Inductive ErrorType :=
  | ErrorTypeNetwork | ErrorTypeTimeout | ErrorTypeAuth | ErrorTypeNotFound
  | ErrorTypeFileSystem | ErrorTypeInvalidInput | ErrorTypeInsufficientSpace
  | ErrorTypeUnknown.

(** The Go field [Type] is [ErrType] here ([Type] is a keyword). *)
Record ClassifiedError := MkClassifiedError {
  ErrType : ErrorType;
  Err : error;
  Retryable : bool;
  Temporary : bool
}.

Definition network_keywords : list string :=
  ["network"; "connection"; "dial"; "no route to host"; "host is down"].
Definition timeout_keywords : list string :=
  ["timeout"; "deadline exceeded"; "i/o timeout"].
Definition auth_keywords : list string :=
  ["auth"; "unauthorized"; "forbidden"; "permission denied"; "access denied"].
Definition notfound_keywords : list string :=
  ["not found"; "no such file"; "does not exist"; "404"].
Definition space_keywords : list string :=
  ["no space left"; "insufficient space"; "disk full"; "quota exceeded"].
Definition filesystem_keywords : list string :=
  ["filesystem"; "i/o error"; "read-only"].

(** [strings.Contains(s, k1) || strings.Contains(s, k2) || ...] *)
Definition contains_any (s : string) (ks : list string) : bool :=
  existsb (contains s) ks.

Definition ClassifyError (err : option error) : option ClassifiedError :=
  match err with
  | None => None
  | Some e =>
      let errStr := to_lower (err_string e) in
      if as_validation e then Some (MkClassifiedError ErrorTypeInvalidInput e false false)
      else if contains_any errStr network_keywords then
        Some (MkClassifiedError ErrorTypeNetwork e true true)
      else if contains_any errStr timeout_keywords then
        Some (MkClassifiedError ErrorTypeTimeout e true true)
      else if contains_any errStr auth_keywords then
        Some (MkClassifiedError ErrorTypeAuth e false false)
      else if contains_any errStr notfound_keywords then
        Some (MkClassifiedError ErrorTypeNotFound e false false)
      else if contains_any errStr space_keywords then
        Some (MkClassifiedError ErrorTypeInsufficientSpace e false false)
      else if contains_any errStr filesystem_keywords then
        Some (MkClassifiedError ErrorTypeFileSystem e false false)
      else Some (MkClassifiedError ErrorTypeUnknown e true false)
  end.




(* ------------------------------------------------------------------ *)
(** ** More float64 operations *)

(** Float division [a / b] for [b <> 0] (division by zero, which yields
    an infinity or NaN in Go, is outside the model). *)
Definition f64_div (a b : f64) : f64 :=
  if f_m a =? 0 then F64 0 0
  else
    let neg := xorb (f_m a <? 0) (f_m b <? 0) in
    let p := Z.abs (f_m a) * 2 ^ (Z.max 0 (f_e a - f_e b)) in
    let q := Z.abs (f_m b) * 2 ^ (Z.max 0 (f_e b - f_e a)) in
    f64_round neg p q.

(** Float addition [a + b]. *)
Definition f64_add (a b : f64) : f64 :=
  let e := Z.min (f_e a) (f_e b) in
  let s := f_m a * 2 ^ (f_e a - e) + f_m b * 2 ^ (f_e b - e) in
  if s =? 0 then F64 0 0
  else let r := f64_round (s <? 0) (Z.abs s) 1 in
       F64 (f_m r) (f_e r + e).

(** [fmt.Sprintf("%.1f", x)]: the exact binary value rounded to one
    decimal place, halfway cases to even (Go's [strconv] with an explicit
    precision works on the exact decimal expansion). *)
Definition fmt_f1 (x : f64) : string :=
  let a := Z.abs (f_m x) in
  let tenths :=
    if 0 <=? f_e x then a * 2 ^ f_e x * 10
    else
      let num := a * 10 in
      let den := 2 ^ (- f_e x) in
      let q := num / den in
      let r := num mod den in
      if (den <? 2 * r) || ((2 * r =? den) && Z.odd q) then q + 1 else q in
  let body := (fmt_int (tenths / 10) +:+ "." +:+
               String (ascii_of_nat (Z.to_nat (48 + tenths mod 10))) EmptyString)%string in
  if f_m x <? 0 then ("-" +:+ body)%string else body.

(* ------------------------------------------------------------------ *)
(** ** Go library helpers *)

(** A Go result pair [(value, err)]: [ROk v] when [err] is nil. *)
Inductive result (A : Type) :=
  | ROk (a : A)
  | RErr (e : error).
Arguments ROk {A} a.
Arguments RErr {A} e.

(** [strings.Split(s, sep)] for a one-byte separator, on bytes. *)
Fixpoint split_on (sep : ascii) (s : list ascii) : list (list ascii) :=
  match s with
  | [] => [[]]
  | c :: s' =>
      if Ascii.eqb c sep then [] :: split_on sep s'
      else match split_on sep s' with
           | l :: ls => (c :: l) :: ls
           | [] => [[c]]
           end
  end.

Definition strings_Split (s : string) (sep : ascii) : list string :=
  map string_of_list_ascii (split_on sep (list_ascii_of_string s)).

(** The parts of [s] before and after the first [sep], if any. *)
Fixpoint break_at (sep : ascii) (s : list ascii) : option (list ascii * list ascii) :=
  match s with
  | [] => None
  | c :: s' =>
      if Ascii.eqb c sep then Some ([], s')
      else match break_at sep s' with
           | Some (a, b) => Some (c :: a, b)
           | None => None
           end
  end.

(** [strings.SplitN(s, sep, 2)] for a one-byte separator. *)
Definition strings_SplitN2 (s : string) (sep : ascii) : list string :=
  match break_at sep (list_ascii_of_string s) with
  | None => [s]
  | Some (a, b) => [string_of_list_ascii a; string_of_list_ascii b]
  end.

(** [int64(x)] of a wider integer: two's complement wrap-around. *)
Definition wrap64 (z : Z) : Z := (z + 2 ^ 63) mod 2 ^ 64 - 2 ^ 63.

(** [rune(x)] of an [int]: truncation to 32 bits. *)
Definition wrap32 (z : Z) : Z := (z + 2 ^ 31) mod 2 ^ 32 - 2 ^ 31.

Definition byte_of (z : Z) : ascii := ascii_of_nat (Z.to_nat z).

(** [string(r)] for a rune [r]: its UTF-8 encoding, or that of U+FFFD
    when [r] is negative, a surrogate or above U+10FFFF. *)
Definition utf8_encode (r : Z) : list ascii :=
  let bad := [byte_of 239; byte_of 191; byte_of 189] in
  if r <? 0 then bad
  else if r <? 128 then [byte_of r]
  else if r <? 2048 then [byte_of (192 + r / 64); byte_of (128 + r mod 64)]
  else if (55296 <=? r) && (r <=? 57343) then bad
  else if r <? 65536 then
    [byte_of (224 + r / 4096); byte_of (128 + (r / 64) mod 64); byte_of (128 + r mod 64)]
  else if r <=? 1114111 then
    [byte_of (240 + r / 262144); byte_of (128 + (r / 4096) mod 64);
     byte_of (128 + (r / 64) mod 64); byte_of (128 + r mod 64)]
  else bad.

(* ------------------------------------------------------------------ *)
(** ** Remote paths and rclone listings (utilities, unnamed part 0)

    A subprocess [exec.CommandContext(ctx, "rclone", args...).Output()]
    is the function [run]: [run args] is its captured standard output or
    its error. *)

Definition IsRemotePath (path : string) : bool := contains path ":".

Definition SplitRemotePath (remotePath : string) : string * string :=
  match strings_SplitN2 remotePath ":" with
  | [remote; path] => (remote, path)
  | _ => (""%string, remotePath)
  end.

Definition JoinRemotePath (remote path : string) : string :=
  if String.eqb remote "" then path else (remote +:+ ":" +:+ path)%string.

Definition ListFiles (run : list string -> result string) (path : string)
    (recursive : bool) : result (list string) :=
  let args := ["lsf"; path]%string in
  let args := if negb recursive then args ++ ["--max-depth"; "1"]%string else args in
  match run args with
  | RErr err => RErr (ErrWrap "failed to list files: " err)
  | ROk output =>
      let lines := strings_Split (trim_space output) LF in
      ROk (fold_left (fun files line =>
             if String.eqb line "" then files else files ++ [trim_space line])
             lines [])
  end.

Definition ListRemotes (run : list string -> result string) : result (list string) :=
  match run ["listremotes"]%string with
  | RErr err => RErr (ErrWrap "failed to list remotes: " err)
  | ROk output =>
      let lines := strings_Split (trim_space output) LF in
      ROk (fold_left (fun remotes line =>
             if String.eqb line "" then remotes
             else remotes ++ [trim_suffix (trim_space line) ":"])
             lines [])
  end.

Definition GetRcloneVersion (run : list string -> result string) : result string :=
  match run ["version"; "--check=false"]%string with
  | RErr err => RErr (ErrWrap "failed to get rclone version: " err)
  | ROk output =>
      let lines := strings_Split output LF in
      if (0 <? length lines)%nat then ROk (trim_space (nth 0 lines ""%string))
      else RErr (ErrText "no version output from rclone")
  end.

(** [CheckDuplicates]; [existing[filename]] is [false] for a missing key. *)
Definition CheckDuplicates (run : list string -> result string) (destination : string)
    (filenames : list string) : result (gmap string bool) :=
  if (length filenames =? 0)%nat then ROk ∅
  else
    match ListFiles run destination false with
    | RErr err => RErr (ErrWrap "failed to list destination: " err)
    | ROk existingFiles =>
        let existing := fold_left (fun (m : gmap string bool) file => <[file := true]> m)
                          existingFiles ∅ in
        ROk (fold_left (fun duplicates filename =>
               match existing !! filename with
               | Some true => <[filename := true]> duplicates
               | _ => duplicates
               end) filenames ∅)
    end.

(* ------------------------------------------------------------------ *)
(** ** Flags and the options builder (options.go) *)

(** The [formatInt] loop: prepend the last digit of [i] while [i > 0]. *)
Fixpoint format_digits (fuel : nat) (i : Z) (result : list ascii) : list ascii :=
  match fuel with
  | O => result
  | S fuel' =>
      if 0 <? i then format_digits fuel' (i / 10) (byte_of (i mod 10 + 48) :: result)
      else result
  end.

(** [formatInt(i)] ([int] is 64-bit): [string(rune(i + '0'))] below 10. *)
Definition formatInt (i : Z) : string :=
  if i <? 10 then string_of_list_ascii (utf8_encode (wrap32 (i + 48)))
  else string_of_list_ascii (format_digits (S (Z.to_nat (Z.log2 i))) i []).

Module CommonFlags.
Record t := Mk {
  Transfers : Z;
  Checkers : Z;
  Bandwidth : Z;
  IgnoreChecksum : bool;
  NoTraverse : bool;
  Progress : bool;
  Verbose : bool;
  Exclude : list string;
  Include : list string;
  MinAge : string;
  MaxAge : string
}.
End CommonFlags.

Definition ToFlags (f : CommonFlags.t) : list string :=
  let flags := @nil string in
  let flags := if 0 <? CommonFlags.Transfers f
               then flags ++ ["--transfers"; formatInt (CommonFlags.Transfers f)]%string
               else flags in
  let flags := if 0 <? CommonFlags.Checkers f
               then flags ++ ["--checkers"; formatInt (CommonFlags.Checkers f)]%string
               else flags in
  let flags := if 0 <? CommonFlags.Bandwidth f
               then flags ++ ["--bwlimit"; formatInt (CommonFlags.Bandwidth f) +:+ "k"]%string
               else flags in
  let flags := if CommonFlags.IgnoreChecksum f then flags ++ ["--ignore-checksum"]%string
               else flags in
  let flags := if CommonFlags.NoTraverse f then flags ++ ["--no-traverse"]%string else flags in
  let flags := if CommonFlags.Progress f then flags ++ ["-P"]%string else flags in
  let flags := if CommonFlags.Verbose f then flags ++ ["-v"]%string else flags in
  let flags := fold_left (fun flags pattern => flags ++ ["--exclude"; pattern]%string)
                 (CommonFlags.Exclude f) flags in
  let flags := fold_left (fun flags pattern => flags ++ ["--include"; pattern]%string)
                 (CommonFlags.Include f) flags in
  let flags := if negb (String.eqb (CommonFlags.MinAge f) "")
               then flags ++ ["--min-age"; CommonFlags.MinAge f]%string else flags in
  let flags := if negb (String.eqb (CommonFlags.MaxAge f) "")
               then flags ++ ["--max-age"; CommonFlags.MaxAge f]%string else flags in
  flags.

(** The [TransferOptions] builder is modelled by the [RcloneOptions] it
    holds; each method updates it and returns the same builder, so a
    chain of calls is a composition of functions. [WithStatsInterval]
    ([time.Duration.String]) is not modelled. *)
Definition NewTransferOptions (source destination : string) : RcloneOptions.t :=
  RcloneOptions.Mk "copy" source destination [] "500ms" false.

Definition WithCommand (cmd : string) (t : RcloneOptions.t) : RcloneOptions.t :=
  RcloneOptions.Mk cmd (RcloneOptions.Source t) (RcloneOptions.Destination t)
    (RcloneOptions.Flags t) (RcloneOptions.StatsInterval t) (RcloneOptions.DryRun t).

Definition WithFlags (flags : list string) (t : RcloneOptions.t) : RcloneOptions.t :=
  RcloneOptions.Mk (RcloneOptions.Command t) (RcloneOptions.Source t)
    (RcloneOptions.Destination t) (RcloneOptions.Flags t ++ flags)
    (RcloneOptions.StatsInterval t) (RcloneOptions.DryRun t).

Definition WithCommonFlags (common : CommonFlags.t) (t : RcloneOptions.t) : RcloneOptions.t :=
  RcloneOptions.Mk (RcloneOptions.Command t) (RcloneOptions.Source t)
    (RcloneOptions.Destination t) (RcloneOptions.Flags t ++ ToFlags common)
    (RcloneOptions.StatsInterval t) (RcloneOptions.DryRun t).

Definition WithDryRun (t : RcloneOptions.t) : RcloneOptions.t :=
  RcloneOptions.Mk (RcloneOptions.Command t) (RcloneOptions.Source t)
    (RcloneOptions.Destination t) (RcloneOptions.Flags t)
    (RcloneOptions.StatsInterval t) true.

Definition Build (t : RcloneOptions.t) : RcloneOptions.t := t.

(* ------------------------------------------------------------------ *)
(** ** [path/filepath] on Unix: [Clean], [Dir], [Join], [Abs] *)

(** The longest prefix of [l] whose elements satisfy [f], and the rest. *)
Fixpoint take_while {A} (f : A -> bool) (l : list A) : list A :=
  match l with [] => [] | x :: l' => if f x then x :: take_while f l' else [] end.

Fixpoint drop_while {A} (f : A -> bool) (l : list A) : list A :=
  match l with [] => [] | x :: l' => if f x then drop_while f l' else l end.

(** Backtracking over [..]: [out] is the output buffer reversed (its head
    is the last byte written); drop bytes down to the previous [/]. *)
Fixpoint clean_backtrack (out : list ascii) (dotdot : nat) : list ascii :=
  match out with
  | [] => []
  | c :: out' =>
      if (dotdot <? length out')%nat && negb (Ascii.eqb c "/")
      then clean_backtrack out' dotdot else out'
  end.

Definition at_sep_or_end (rest : list ascii) : bool :=
  match rest with [] => true | c :: _ => Ascii.eqb c "/" end.

(** The main loop of [Clean]; [path] is the unread input, [out] the
    output buffer reversed. *)
Fixpoint clean_loop (fuel : nat) (rooted : bool) (path out : list ascii) (dotdot : nat)
    : list ascii :=
  match fuel with
  | O => out
  | S fuel' =>
      match path with
      | [] => out
      | c :: rest =>
          if Ascii.eqb c "/" then clean_loop fuel' rooted rest out dotdot
          else if Ascii.eqb c "." && at_sep_or_end rest then
            clean_loop fuel' rooted rest out dotdot
          else if Ascii.eqb c "." &&
                  match rest with
                  | c' :: rest' => Ascii.eqb c' "." && at_sep_or_end rest'
                  | [] => false
                  end then
            let rest' := tl rest in
            if (dotdot <? length out)%nat then
              clean_loop fuel' rooted rest' (clean_backtrack out dotdot) dotdot
            else if negb rooted then
              let out := if (0 <? length out)%nat then "/"%char :: out else out in
              let out := "."%char :: "."%char :: out in
              clean_loop fuel' rooted rest' out (length out)
            else clean_loop fuel' rooted rest' out dotdot
          else
            let out :=
              if (rooted && negb (length out =? 1)%nat) || (negb rooted && negb (length out =? 0)%nat)
              then "/"%char :: out else out in
            let seg := take_while (fun c => negb (Ascii.eqb c "/")) path in
            let rest := drop_while (fun c => negb (Ascii.eqb c "/")) path in
            clean_loop fuel' rooted rest (rev seg ++ out) dotdot
      end
  end.

(** [filepath.Clean] *)
Definition Clean (p : string) : string :=
  let path := list_ascii_of_string p in
  match path with
  | [] => "."
  | c :: path' =>
      let rooted := Ascii.eqb c "/" in
      let out := clean_loop (length path) rooted (if rooted then path' else path)
                   (if rooted then ["/"%char] else []) (if rooted then 1 else 0)%nat in
      match out with
      | [] => "."
      | _ => string_of_list_ascii (rev out)
      end
  end.

(** [filepath.Dir]: [Clean] of everything up to the last separator. *)
Definition Dir (p : string) : string :=
  let path := list_ascii_of_string p in
  Clean (string_of_list_ascii
           (rev (drop_while (fun c => negb (Ascii.eqb c "/")) (rev path)))).

(** [filepath.Join(a, b)]: the non-empty elements joined by [/], cleaned. *)
Definition Join2 (a b : string) : string :=
  if negb (String.eqb a "") then Clean (a +:+ "/" +:+ b)%string
  else if negb (String.eqb b "") then Clean b
  else "".

(** [filepath.Abs(path)]; [getwd] is the result of [os.Getwd()]. *)
Definition Abs (getwd : result string) (path : string) : result string :=
  if String.prefix "/" path then ROk (Clean path)
  else match getwd with
       | RErr e => RErr e
       | ROk wd => ROk (Join2 wd path)
       end.

(* ------------------------------------------------------------------ *)
(** ** Validation (unnamed part 4)

    The file system is an oracle: [fs_stat p] is the outcome of
    [os.Stat(p)], [fs_statfs p] that of [syscall.Statfs(p, &stat)]
    ([Bavail] as an unsigned, [Bsize] as a signed 64-bit number),
    [fs_getwd] that of [os.Getwd()]. *)

Inductive stat_result :=
  | StatOk (is_dir : bool)
  | StatNotExist (e : error)
  | StatErr (e : error).

Record FileSystem := MkFileSystem {
  fs_getwd : result string;
  fs_stat : string -> stat_result;
  fs_statfs : string -> result (Z * Z)
}.

Definition ValidateSourcePath (fs : FileSystem) (path : string) : option error :=
  if String.eqb path "" then
    Some (ErrValidation "source" "source path cannot be empty")
  else if contains path ":" then None
  else match fs_stat fs path with
       | StatOk _ => None
       | StatNotExist _ =>
           Some (ErrValidation "source" ("path does not exist: " +:+ path))
       | StatErr err =>
           Some (ErrValidation "source" ("cannot access path: " +:+ err_string err))
       end.

Definition ValidateDestinationPath (fs : FileSystem) (path : string) : option error :=
  if String.eqb path "" then
    Some (ErrValidation "destination" "destination path cannot be empty")
  else if contains path ":" then None
  else
    let dir := Dir path in
    if negb (String.eqb dir "") && negb (String.eqb dir ".") then
      match fs_stat fs dir with
      | StatOk _ => None
      | StatNotExist _ =>
          Some (ErrValidation "destination" ("parent directory does not exist: " +:+ dir))
      | StatErr err =>
          Some (ErrValidation "destination" ("cannot access parent directory: " +:+ err_string err))
      end
    else None.

(** [ValidateRemote]: [lsf timeout args] is the outcome of
    [exec.CommandContext(timeoutCtx, "rclone", args...).Run()] under a
    context with the given timeout: [None] on success, or the error with
    whether [timeoutCtx.Err()] is [DeadlineExceeded]. *)
Definition ValidateRemote (lsf : Z -> list string -> option (error * bool))
    (remoteName : string) (timeout : Z) : option error :=
  if String.eqb remoteName "" then
    Some (ErrValidation "remote" "remote name cannot be empty")
  else
    let remoteName := trim_suffix remoteName ":" in
    let timeout := if timeout =? 0 then 10 * second else timeout in
    match lsf timeout ["lsf"; remoteName +:+ ":"; "--max-depth"; "1"]%string with
    | None => None
    | Some (_, true) =>
        Some (ErrValidation "remote" ("timeout validating remote: " +:+ remoteName))
    | Some (err, false) =>
        Some (ErrValidation "remote" ("remote not accessible: " +:+ remoteName +:+
                                      " (" +:+ err_string err +:+ ")"))
    end.

(** The loop of [FormattedBytes]: [(div, exp)]. *)
Fixpoint fb_loop (fuel : nat) (n div exp : Z) : Z * Z :=
  match fuel with
  | O => (div, exp)
  | S fuel' =>
      if 1024 <=? n then fb_loop fuel' (n / 1024) (div * 1024) (exp + 1)
      else (div, exp)
  end.

(** [FormattedBytes(bytes)]. For an [int64] argument the loop runs at most
    five times, so the index into ["KMGTPE"] is in range. *)
Definition FormattedBytes (bytes : Z) : string :=
  if bytes <? 1024 then (fmt_int bytes +:+ " B")%string
  else
    let '(div, exp) := fb_loop (Z.to_nat (Z.log2 bytes)) (bytes / 1024) 1024 0 in
    (fmt_f1 (f64_div (f64_of_Z bytes) (f64_of_Z div)) +:+ " " +:+
     String (match String.get (Z.to_nat exp) "KMGTPE" with Some c => c | None => "?"%char end)
       "B")%string.

(** [getAvailableDiskSpace] (disk_unix.go). *)
Definition getAvailableDiskSpace (fs : FileSystem) (path : string) : result Z :=
  match fs_statfs fs path with
  | RErr err => RErr (ErrWrap "failed to get filesystem stats: " err)
  | ROk (bavail, bsize) => ROk (wrap64 (wrap64 bavail * bsize))
  end.

Definition CheckDiskSpace (fs : FileSystem) (path : string) (requiredBytes : Z) : option error :=
  if contains path ":" then None
  else match Abs (fs_getwd fs) path with
  | RErr err => Some (ErrWrap "failed to get absolute path: " err)
  | ROk absPath =>
      let checked :=
        match fs_stat fs absPath with
        | StatOk true => ROk absPath
        | StatOk false => ROk (Dir absPath)
        | StatNotExist _ => ROk (Dir absPath)
        | StatErr err => RErr (ErrWrap "failed to stat path: " err)
        end in
      match checked with
      | RErr e => Some e
      | ROk absPath =>
          match getAvailableDiskSpace fs absPath with
          | RErr err => Some (ErrWrap "failed to get disk space: " err)
          | ROk available =>
              if available <? requiredBytes then
                Some (ErrText ("insufficient disk space: need " +:+ FormattedBytes requiredBytes
                               +:+ ", have " +:+ FormattedBytes available))
              else None
          end
      end
  end.

(* ------------------------------------------------------------------ *)
(** ** Transfer timing (unnamed part 2)

    [now] is [time.Now()]; clock readings are taken within the range
    where [time.Time.Sub] does not saturate. *)

Definition Duration (t : Transfer) (now : Z) : Z :=
  if StartTime t =? 0 then 0
  else if EndTime t =? 0 then now - StartTime t
  else EndTime t - StartTime t.

(** [d.Seconds()]: [float64(d / Second) + float64(d % Second) / 1e9]. *)
Definition Seconds (d : Z) : f64 :=
  f64_add (f64_of_Z (Z.quot d second))
          (f64_div (f64_of_Z (Z.rem d second)) (f64_of_Z 1000000000)).

Definition Speed (t : Transfer) (now : Z) : f64 :=
  if StartTime t =? 0 then F64 0 0
  else
    let elapsed := Seconds (Duration t now) in
    if f_m elapsed =? 0 then F64 0 0
    else f64_div (f64_of_Z (BytesCopied t)) elapsed.

Definition FormattedSpeed (t : Transfer) (now : Z) : string :=
  let speed := Speed t now in
  if f_m speed =? 0 then "0 B/s"
  else (FormattedBytes (f64_trunc speed) +:+ "/s")%string.

(* ------------------------------------------------------------------ *)
(** ** Auxiliary definitions of the properties *)

(** The argument shape as the interface description writes it:
    [<verb> -v --stats <interval> [--dry-run] [...flags...] <source> <destination>],
    with the interval defaulting to ["500ms"]. *)
Definition spec_args (opts : RcloneOptions.t) : list string :=
  [RcloneOptions.Command opts; "-v"; "--stats";
   (if String.eqb (RcloneOptions.StatsInterval opts) "" then "500ms"
    else RcloneOptions.StatsInterval opts)] ++
  (if RcloneOptions.DryRun opts then ["--dry-run"] else []) ++
  RcloneOptions.Flags opts ++
  [RcloneOptions.Source opts; RcloneOptions.Destination opts].

(** Completed and Failed, the terminal statuses. *)
Definition terminal (s : status) : bool :=
  String.eqb s StatusCompleted || String.eqb s StatusFailed.

(** One of the four status constants. *)
Definition known_status (s : status) : bool :=
  String.eqb s StatusPending || String.eqb s StatusInProgress ||
  String.eqb s StatusCompleted || String.eqb s StatusFailed.

(** Every record of the store has one of the four status constants. *)
Definition known_statuses (ts : gmap string Transfer) : Prop :=
  map_Forall (fun _ t => known_status (Status t) = true) ts.

(** The unit strings in canonical upper case, with their binary order. *)
Definition unit_orders : list (string * Z) :=
  [("", 0); ("B", 0); ("K", 1); ("KB", 1); ("KIB", 1); ("M", 2); ("MB", 2);
   ("MIB", 2); ("G", 3); ("GB", 3); ("GIB", 3)].

(** The stats line of the decoding example. *)
Definition c2_text : string :=
  "Transferred:   512.0 MiB / 1.0 GiB, 50%, 10.0 MiB/s, ETA 30s".

(** The stream of the stats-line example: the stats line terminated by a carriage return. *)
Definition c2_stream : list ascii := list_ascii_of_string c2_text ++ [CR].

(** No byte of [l] is a line terminator. *)
Definition no_crlf (l : list ascii) : Prop := Forall (fun c => is_crlf c = false) l.

(** Bytes the split function skips after the terminator [c]: the [\n] of
    a [\r\n] pair when it is already in the buffer. *)
Definition crlf_extra (c : ascii) (rest : list ascii) : nat :=
  if Ascii.eqb c CR then
    match rest with c' :: _ => if Ascii.eqb c' LF then 1 else 0 | [] => 0 end
  else 0.

(** A scanner whose input is wholly in its (initial-size) buffer, the
    reader being drained but EOF not yet reported. *)
Definition buffered (st : scanner) (data : list ascii) : Prop :=
  sc_len st = 64 * 1024 /\ sc_data st = data /\ sc_reader st = [] /\
  sc_eof st = false /\ sc_done st = false /\ 0 <= sc_start st /\
  sc_end st - sc_start st = Z.of_nat (length data) /\ sc_end st < 64 * 1024.

(* ================================================================== *)
(** The standard output of a command that prints [lines], each followed
    by a newline. *)
Definition lines_output (lines : list string) : string :=
  fold_right (fun l acc => (l +:+ String LF acc)%string) ""%string lines.

(** Byte lists joined with newlines. *)
Fixpoint joinl (xs : list (list ascii)) : list ascii :=
  match xs with
  | [] => []
  | [x] => x
  | x :: xs' => x ++ LF :: joinl xs'
  end.

(** The first byte of [s] exists and is not white space. *)
Definition no_lead_space (s : string) : bool :=
  match list_ascii_of_string s with c :: _ => negb (ascii_space c) | [] => false end.

(** The last byte of [s] exists and is not white space. *)
Definition no_trail_space (s : string) : bool :=
  match rev (list_ascii_of_string s) with c :: _ => negb (ascii_space c) | [] => false end.

(** One call of the [TransferOptions] builder. *)
Inductive builder_call :=
  | CallCommand (cmd : string)
  | CallFlags (flags : list string)
  | CallCommonFlags (common : CommonFlags.t)
  | CallDryRun.

Definition apply_call (t : RcloneOptions.t) (c : builder_call) : RcloneOptions.t :=
  match c with
  | CallCommand cmd => WithCommand cmd t
  | CallFlags flags => WithFlags flags t
  | CallCommonFlags common => WithCommonFlags common t
  | CallDryRun => WithDryRun t
  end.

(** The flags a call contributes. *)
Definition call_flags (c : builder_call) : list string :=
  match c with
  | CallFlags flags => flags
  | CallCommonFlags common => ToFlags common
  | _ => []
  end.

(** The command after a call. *)
Definition call_command (cmd : string) (c : builder_call) : string :=
  match c with CallCommand cmd' => cmd' | _ => cmd end.

Definition is_dry_run (c : builder_call) : bool :=
  match c with CallDryRun => true | _ => false end.

(** A flag with an argument, emitted only when the argument is set. *)
Definition opt_flag (set : bool) (flag : list string) : list string :=
  if set then flag else [].

(** The bytes that can occur in a lower-cased [FormattedBytes] text. *)
Definition fb_alpha (c : ascii) : bool :=
  is_digit c || existsb (Ascii.eqb c) (list_ascii_of_string "-. kmgtpeb?").

Fixpoint is_prefix (a b : list ascii) : bool :=
  match a, b with
  | [], _ => true
  | x :: a', y :: b' => Ascii.eqb x y && is_prefix a' b'
  | _ :: _, [] => false
  end.

(** No non-empty suffix of [p] shorter than [k] is a prefix of [k], so an
    occurrence of [k] in [p ++ r] lies inside [p] or inside [r]. *)
Fixpoint straddle_free (p k : list ascii) : bool :=
  match p with
  | [] => true
  | _ :: p' => negb ((length p <? length k)%nat && is_prefix p k) && straddle_free p' k
  end.

(** No non-empty prefix of [k] is made of [fb_alpha] bytes and ends in 'b'. *)
Definition no_fb_prefix (k : list ascii) : bool :=
  forallb (fun i => let q := firstn i k in
             negb (forallb fb_alpha q && Ascii.eqb (List.last q "?"%char) "b"))
          (seq 1 (length k)).

Definition classify_keywords : list string :=
  network_keywords ++ timeout_keywords ++ auth_keywords ++ notfound_keywords ++
  space_keywords ++ filesystem_keywords.

(** The bytes of [FormattedBytes]: digits, '-', '.', ' ', the unit
    letter and 'B'. *)
Definition fb_char (c : ascii) : bool :=
  is_digit c || existsb (Ascii.eqb c) (list_ascii_of_string "-. KMGTPEB?").

Definition space_prefix1 : string := "insufficient disk space: need ".
Definition space_prefix2 : string := ", have ".

(** A sequence of [m.Add(id, source, destination)] calls, the returned
    records discarded, and the ids it adds. *)
Definition add_all (m : Manager) (l : list (string * string * string)) : Manager :=
  fold_left (fun m '(id, src, dst) => fst (Add m id src dst)) l m.

Definition add_ids (l : list (string * string * string)) : list string :=
  map (fun '(id, _, _) => id) l.

(** The sum of the four counts of [Stats]. *)
Definition stats_total (c : Z * Z * Z * Z) : Z :=
  let '(p, i, co, f) := c in p + i + co + f.

(** [t'] differs from [t] at most in [Progress], [BytesCopied] and
    [BytesTotal]. *)
Definition progress_frame (t t' : Transfer) : Prop :=
  ID t' = ID t /\ Source t' = Source t /\ Destination t' = Destination t /\
  Status t' = Status t /\ StartTime t' = StartTime t /\ EndTime t' = EndTime t /\
  Error t' = Error t.

(** [m'] is [m] with at most the progress fields of record [id] changed:
    same order, same other records, [id] present in both or in neither. *)
Definition store_frame (id : string) (m m' : Manager) : Prop :=
  order m' = order m /\
  (forall id', id' <> id -> Get m' id' = Get m id') /\
  match Get m id, Get m' id with
  | None, None => True
  | Some t, Some t' => progress_frame t t'
  | _, _ => False
  end.

(** The sleeps of [n] backoff rounds of the retry loop, from delay [d]. *)
Fixpoint backoff (cfg : RetryConfig) (n : nat) (d : Z) : list Z :=
  match n with
  | O => []
  | S n' => d :: backoff cfg n' (next_delay cfg d)
  end.

(** * Properties *)

(* ------------------------------------------------------------------ *)
(** ** Argument vector *)

(** C8: for every options value, [Execute] builds the argument vector as
    the verb, [-v], [--stats] with the interval (["500ms"] when unset),
    [--dry-run] exactly when the dry-run flag is set, the extra flags in
    order, then source and destination last. *)
Theorem execute_args_order (opts : RcloneOptions.t) :
  execute_args opts = spec_args opts.
Proof.
  destruct opts as [cmd src dst flags iv dry].
  unfold execute_args, spec_args; simpl.
  destruct dry; simpl; rewrite <- ?app_assoc; reflexivity.
Qed.

(* ------------------------------------------------------------------ *)
(** ** [UpdateProgress] frame *)

(** C9: [UpdateProgress] with an unknown id leaves the store unchanged;
    with a known id it sets exactly [Progress], [BytesCopied] and
    [BytesTotal] of that record, whatever its status, and leaves its other
    fields, every other record and the insertion order unchanged. *)
Theorem UpdateProgress_frame (m : Manager) (id : string) (p : f64) (c t : Z) :
  (transfers m !! id = None -> UpdateProgress m id p c t = m) /\
  (forall tr, transfers m !! id = Some tr ->
     Get (UpdateProgress m id p c t) id =
       Some (MkTransfer (ID tr) (Source tr) (Destination tr) (Status tr) p t c
               (StartTime tr) (EndTime tr) (Error tr)) /\
     (forall k, k <> id -> Get (UpdateProgress m id p c t) k = Get m k) /\
     order (UpdateProgress m id p c t) = order m).
Proof.
  unfold UpdateProgress, with_transfer, Get. split.
  - intros H. rewrite H. reflexivity.
  - intros tr H. rewrite H. simpl. split; [|split].
    + apply lookup_insert_eq.
    + intros k Hk. apply lookup_insert_ne. congruence.
    + reflexivity.
Qed.

Lemma UpdateProgress_frame_witness :
  let m := Complete (fst (Add NewManager "t1" "src" "dst")) "t1" 9 in
  UpdateProgress m "t2" (f64_of_Z 10) 1 2 = m /\
  Get (UpdateProgress m "t1" (f64_of_Z 10) 1 2) "t1" =
    Some (MkTransfer "t1" "src" "dst" StatusCompleted (f64_of_Z 10) 2 1 0 9 None).
Proof.
  intros m. split.
  - apply (proj1 (UpdateProgress_frame m "t2" (f64_of_Z 10) 1 2)). reflexivity.
  - apply (proj2 (UpdateProgress_frame m "t1" (f64_of_Z 10) 1 2)
             (MkTransfer "t1" "src" "dst" StatusCompleted (f64_of_Z 100) 0 0 0 9 None)).
    reflexivity.
Defined.

(* ------------------------------------------------------------------ *)
(** ** Error classification *)

(** C7: a non-validation error whose lower-cased text contains a network
    keyword and an auth keyword is classified Network, retryable and
    temporary (the network rule comes first); a non-validation error whose
    text matches no keyword set is Unknown, retryable, not temporary. *)
Theorem ClassifyError_priority :
  (forall e : error,
     as_validation e = false ->
     contains_any (to_lower (err_string e)) network_keywords = true ->
     contains_any (to_lower (err_string e)) auth_keywords = true ->
     ClassifyError (Some e) = Some (MkClassifiedError ErrorTypeNetwork e true true)) /\
  (forall e : error,
     as_validation e = false ->
     forallb (fun ks => negb (contains_any (to_lower (err_string e)) ks))
       [network_keywords; timeout_keywords; auth_keywords; notfound_keywords;
        space_keywords; filesystem_keywords] = true ->
     ClassifyError (Some e) = Some (MkClassifiedError ErrorTypeUnknown e true false)).
Proof.
  split.
  - intros e Hv Hn _. unfold ClassifyError. rewrite Hv, Hn. reflexivity.
  - intros e Hv Hk. cbn [forallb] in Hk. rewrite !andb_true_iff, !negb_true_iff in Hk.
    destruct Hk as (H1 & H2 & H3 & H4 & H5 & H6 & _).
    unfold ClassifyError. rewrite Hv, H1, H2, H3, H4, H5, H6. reflexivity.
Qed.

Lemma ClassifyError_priority_witness :
  ClassifyError (Some (ErrText "Connection reset: Permission denied")) =
    Some (MkClassifiedError ErrorTypeNetwork
            (ErrText "Connection reset: Permission denied") true true) /\
  ClassifyError (Some (ErrWrap "rclone: " (ErrText "exit status 3"))) =
    Some (MkClassifiedError ErrorTypeUnknown
            (ErrWrap "rclone: " (ErrText "exit status 3")) true false).
Proof.
  split.
  - apply (proj1 ClassifyError_priority); vm_compute; reflexivity.
  - apply (proj2 ClassifyError_priority); vm_compute; reflexivity.
Defined.

(* ------------------------------------------------------------------ *)
(** ** Retry controller *)

Section RetryProofs.
Variable cfg : RetryConfig.
Variable ctx : Context.
Variable exec : Z -> option error.
Hypothesis no_cancel_before : forall a, done_before ctx a = false.
Hypothesis no_cancel_during : forall a, done_during ctx a = false.
Hypothesis always_fails : forall a, exists e, exec a = Some e.

(** From attempt [a], with [k = MaxAttempts - a + 1] rounds left, an
    always-failing attempt is called at [a, a+1, ..., MaxAttempts] and
    the loop ends with ["failed after MaxAttempts attempts"] wrapping the
    failure of the last attempt. *)
Lemma retry_loop_all_fail (k : nat) :
  forall a d l,
    1 <= a -> Z.of_nat k = MaxAttempts cfg - a + 1 -> (1 <= k)%nat ->
    run_calls (retry_loop cfg ctx exec k a d l) = map Z.of_nat (seq (Z.to_nat a) k) /\
    exists e, exec (MaxAttempts cfg) = Some e /\
      run_result (retry_loop cfg ctx exec k a d l) =
        Some (errorf_attempts "failed" (MaxAttempts cfg) (Some e)).
Proof.
  induction k as [|k IH]; intros a d l Ha Hk H1; [lia|].
  simpl retry_loop.
  replace (a <=? MaxAttempts cfg) with true by (symmetry; apply Z.leb_le; lia).
  rewrite no_cancel_before. simpl negb. cbv iota.
  destruct (always_fails a) as [e He]. rewrite He.
  destruct (Z.eqb_spec a (MaxAttempts cfg)) as [Heq|Hne].
  - assert (k = O) by lia. subst k. split.
    + simpl. rewrite Z2Nat.id by lia. reflexivity.
    + exists e. rewrite <- Heq. split; [exact He|]. simpl. rewrite <- Heq. reflexivity.
  - rewrite no_cancel_during.
    destruct (IH (a + 1) (next_delay cfg d) (Some e)) as [Hc Hr]; try lia.
    split.
    + simpl. rewrite Hc. replace (Z.to_nat (a + 1)) with (S (Z.to_nat a)) by lia.
      simpl. rewrite Z2Nat.id by lia. reflexivity.
    + exact Hr.
Qed.
End RetryProofs.

Lemma string_append_assoc (a b c : string) :
  ((a +:+ b) +:+ c)%string = (a +:+ (b +:+ c))%string.
Proof. induction a as [|x a IH]; [reflexivity|exact (f_equal (String x) IH)]. Qed.

(** C5: with [MaxAttempts = N >= 1], no cancellation and an attempt that
    always fails, [ExecuteWithRetry] calls the attempt exactly [N] times
    (attempts [1..N]) and returns the error ["failed after N attempts: "]
    wrapping the last attempt's failure. *)
Theorem ExecuteWithRetry_exhaustion (cfg : RetryConfig) (ctx : Context)
    (exec : Z -> option error) (N : Z) :
  MaxAttempts cfg = N -> 1 <= N ->
  (forall a, done_before ctx a = false) ->
  (forall a, done_during ctx a = false) ->
  (forall a, exists e, exec a = Some e) ->
  run_calls (ExecuteWithRetry cfg ctx exec) = map Z.of_nat (seq 1 (Z.to_nat N)) /\
  exists e, exec N = Some e /\
    run_result (ExecuteWithRetry cfg ctx exec) =
      Some (ErrWrap ("failed after " +:+ fmt_int N +:+ " attempts: ") e) /\
    option_map err_string (run_result (ExecuteWithRetry cfg ctx exec)) =
      Some ("failed after " +:+ fmt_int N +:+ " attempts: " +:+ err_string e).
Proof.
  intros HN H1 Hb Hd Hf. unfold ExecuteWithRetry.
  assert (Hv : MaxAttempts (validate cfg) = N).
  { unfold validate; simpl. rewrite HN. destruct (N <=? 0) eqn:E; [lia|reflexivity]. }
  destruct (retry_loop_all_fail (validate cfg) ctx exec Hb Hd Hf
              (Z.to_nat (MaxAttempts (validate cfg))) 1 (InitialDelay (validate cfg)) None)
    as [Hc [e [He Hr]]]; try lia.
  rewrite Hv in *. split; [exact Hc|].
  exists e. split; [exact He|]. rewrite Hr. split; [reflexivity|].
  simpl. rewrite ?string_append_assoc. reflexivity.
Qed.

Lemma ExecuteWithRetry_exhaustion_witness :
  run_calls (ExecuteWithRetry (MkRetryConfig 3 10000000 100000000 (f64_of_Z 2))
               Background (fun _ => Some (ErrText "exit status 1"))) = [1; 2; 3] /\
  exists e, (fun _ : Z => Some (ErrText "exit status 1")) 3 = Some e /\
    run_result (ExecuteWithRetry (MkRetryConfig 3 10000000 100000000 (f64_of_Z 2))
                  Background (fun _ => Some (ErrText "exit status 1"))) =
      Some (ErrWrap ("failed after " +:+ fmt_int 3 +:+ " attempts: ") e) /\
    option_map err_string
      (run_result (ExecuteWithRetry (MkRetryConfig 3 10000000 100000000 (f64_of_Z 2))
                     Background (fun _ => Some (ErrText "exit status 1")))) =
      Some ("failed after " +:+ fmt_int 3 +:+ " attempts: " +:+ err_string e).
Proof.
  apply (ExecuteWithRetry_exhaustion _ _ _ 3); try reflexivity; try lia.
  intros a. exists (ErrText "exit status 1"). reflexivity.
Defined.

(** The validation of [ExecuteWithRetry] replaces [MaxAttempts <= 0] by 1 (not by the 3 of
    [DefaultRetryConfig]), [InitialDelay <= 0] by 2s, [MaxDelay <= 0] by
    30s and [Multiplier <= 0] by 2.0, and keeps positive values; so with
    [MaxAttempts] unset, an always-failing attempt runs exactly once. *)
Theorem ExecuteWithRetry_validation (cfg : RetryConfig) :
  MaxAttempts (validate cfg) = (if MaxAttempts cfg <=? 0 then 1 else MaxAttempts cfg) /\
  InitialDelay (validate cfg) =
    (if InitialDelay cfg <=? 0 then InitialDelay DefaultRetryConfig else InitialDelay cfg) /\
  MaxDelay (validate cfg) =
    (if MaxDelay cfg <=? 0 then MaxDelay DefaultRetryConfig else MaxDelay cfg) /\
  Multiplier (validate cfg) =
    (if f64_leb (Multiplier cfg) (f64_of_Z 0) then Multiplier DefaultRetryConfig
     else Multiplier cfg) /\
  (forall (ctx : Context) (exec : Z -> option error),
     MaxAttempts cfg <= 0 ->
     (forall a, done_before ctx a = false) ->
     (forall a, done_during ctx a = false) ->
     (forall a, exists e, exec a = Some e) ->
     run_calls (ExecuteWithRetry cfg ctx exec) = [1] /\
     exists e, exec 1 = Some e /\
       run_result (ExecuteWithRetry cfg ctx exec) =
         Some (ErrWrap ("failed after " +:+ fmt_int 1 +:+ " attempts: ") e)).
Proof.
  split; [reflexivity|]. split; [reflexivity|]. split; [reflexivity|].
  split; [reflexivity|].
  intros ctx exec Hm Hb Hd Hf. unfold ExecuteWithRetry.
  assert (Hv : MaxAttempts (validate cfg) = 1).
  { unfold validate; simpl. destruct (MaxAttempts cfg <=? 0) eqn:E; [reflexivity|lia]. }
  destruct (retry_loop_all_fail (validate cfg) ctx exec Hb Hd Hf
              (Z.to_nat (MaxAttempts (validate cfg))) 1 (InitialDelay (validate cfg)) None)
    as [Hc [e [He Hr]]]; try lia.
  rewrite Hv in *. split; [exact Hc|]. exists e. split; [exact He|exact Hr].
Qed.

Lemma ExecuteWithRetry_validation_witness :
  run_calls (ExecuteWithRetry (MkRetryConfig 0 0 0 (F64 0 0)) Background
               (fun _ => Some (ErrText "exit status 1"))) = [1] /\
  exists e, (fun _ : Z => Some (ErrText "exit status 1")) 1 = Some e /\
    run_result (ExecuteWithRetry (MkRetryConfig 0 0 0 (F64 0 0)) Background
                  (fun _ => Some (ErrText "exit status 1"))) =
      Some (ErrWrap ("failed after " +:+ fmt_int 1 +:+ " attempts: ") e).
Proof.
  apply (proj2 (proj2 (proj2 (proj2 (ExecuteWithRetry_validation
                                        (MkRetryConfig 0 0 0 (F64 0 0))))))).
  - simpl; lia.
  - reflexivity.
  - reflexivity.
  - intros a. exists (ErrText "exit status 1"). reflexivity.
Defined.

(** C6 (code bug): with every field of [RetryConfig] unset, the
    validation gives [InitialDelay], [MaxDelay] and [Multiplier] their
    documented defaults, those of [DefaultRetryConfig] (2s, 30s, 2.0), but
    sets [MaxAttempts] to 1 instead of its documented default 3: an
    always-failing attempt then runs once, where [DefaultRetryConfig]
    runs it 3 times. *)
Lemma ExecuteWithRetry_default_attempts_not_3 :
  let cfg := MkRetryConfig 0 0 0 (F64 0 0) in
  let fail := fun _ : Z => Some (ErrText "exit status 1") in
  InitialDelay (validate cfg) = InitialDelay DefaultRetryConfig /\
  MaxDelay (validate cfg) = MaxDelay DefaultRetryConfig /\
  Multiplier (validate cfg) = Multiplier DefaultRetryConfig /\
  MaxAttempts DefaultRetryConfig = 3 /\
  MaxAttempts (validate cfg) = 1 /\
  run_calls (ExecuteWithRetry cfg Background fail) = [1] /\
  run_calls (ExecuteWithRetry DefaultRetryConfig Background fail) = [1; 2; 3].
Proof. intros cfg fail. repeat split; vm_compute; reflexivity. Qed.

(* ------------------------------------------------------------------ *)
(** ** Terminal states of the store *)

(** C3 (as the code does it): for a record whose status is Completed or
    Failed, [UpdateProgress] keeps its status, [Complete] sets Completed
    and [Fail] sets Failed, so these keep it terminal; but [Start] sets it
    to InProgress and [Add] replaces it with a fresh Pending record: no
    operation checks the current status. *)
Theorem terminal_status_transitions (m : Manager) (id : string) (t : Transfer) :
  Get m id = Some t -> terminal (Status t) = true ->
  (forall p c b, option_map Status (Get (UpdateProgress m id p c b) id) = Some (Status t)) /\
  (forall now, option_map Status (Get (Complete m id now) id) = Some StatusCompleted) /\
  (forall err now, option_map Status (Get (Fail m id err now) id) = Some StatusFailed) /\
  (forall now, option_map Status (Get (Start m id now) id) = Some StatusInProgress) /\
  (forall src dst, option_map Status (Get (fst (Add m id src dst)) id) = Some StatusPending).
Proof.
  unfold Get. intros Ht _.
  unfold UpdateProgress, Complete, Fail, Start, Add, with_transfer; simpl.
  rewrite Ht. repeat split; intros; simpl; rewrite ?lookup_insert_eq; reflexivity.
Qed.

Lemma terminal_status_transitions_witness :
  let m := Complete (fst (Add NewManager "t1" "src" "dst")) "t1" 5 in
  option_map Status (Get (Start m "t1" 7) "t1") = Some StatusInProgress.
Proof.
  intros m.
  refine (proj1 (proj2 (proj2 (proj2
            (terminal_status_transitions m "t1"
               (MkTransfer "t1" "src" "dst" StatusCompleted (f64_of_Z 100) 0 0 0 5 None)
               _ _)))) 7); reflexivity.
Defined.

(** C3 counterexample: a Completed record is moved back to InProgress by
    [Start] and to Pending by [Add]. *)
Lemma terminal_not_absorbing :
  let m := Complete (fst (Add NewManager "t1" "src" "dst")) "t1" 5 in
  option_map Status (Get m "t1") = Some StatusCompleted /\
  option_map Status (Get (Start m "t1" 7) "t1") = Some StatusInProgress /\
  option_map Status (Get (fst (Add m "t1" "src" "dst")) "t1") = Some StatusPending.
Proof. vm_compute. repeat split. Qed.

(* ------------------------------------------------------------------ *)
(** ** Re-adding an existing id *)

Lemma count_status_comm (s1 s2 : status) (c : Z * Z * Z * Z) :
  count_status s1 (count_status s2 c) = count_status s2 (count_status s1 c).
Proof.
  destruct c as [[[p i] co] f]. unfold count_status.
  destruct (String.eqb s1 StatusPending), (String.eqb s1 StatusInProgress),
    (String.eqb s1 StatusCompleted), (String.eqb s1 StatusFailed),
    (String.eqb s2 StatusPending), (String.eqb s2 StatusInProgress),
    (String.eqb s2 StatusCompleted), (String.eqb s2 StatusFailed); reflexivity.
Qed.

(** The status counts of a map with [id] bound to [t]: the counts of the
    other records, plus one for [t]. *)
Lemma stats_of_insert (ts : gmap string Transfer) (id : string) (t : Transfer) :
  stats_of (<[id := t]> ts) = count_status (Status t) (stats_of (delete id ts)).
Proof.
  unfold stats_of. rewrite <- insert_delete_eq.
  apply (map_fold_insert_L (fun _ (r : Transfer) c => count_status (Status r) c)).
  - intros; apply count_status_comm.
  - apply lookup_delete_eq.
Qed.

(** [GetAll] after binding [id] to [t]: the records with identifier [id]
    are [t], once per occurrence of [id] in the order list. *)
Lemma GetAll_filter_id (ts : gmap string Transfer) (id : string) (t : Transfer)
    (l : list string) :
  map_Forall (fun k r => ID r = k) ts -> ID t = id ->
  List.filter (fun r => String.eqb (ID r) id) (collect (<[id := t]> ts) l) =
  repeat t (count_occ string_dec l id).
Proof.
  intros Hwf Ht. induction l as [|k l IH]; [reflexivity|].
  simpl. destruct (string_dec k id) as [->|Hne].
  - rewrite lookup_insert_eq. simpl. rewrite Ht, String.eqb_refl, IH. reflexivity.
  - rewrite lookup_insert_ne by congruence.
    destruct (ts !! k) as [r|] eqn:Hr; simpl; [|exact IH].
    rewrite (Hwf k r Hr). apply String.eqb_neq in Hne. rewrite Hne. exact IH.
Qed.

(** C10: in a store whose records carry their own key as [ID] and where
    [id] was added once, [Add] with the same [id] replaces the record with
    a fresh Pending record with zero progress, appends [id] to the order a
    second time, so that [GetAll] returns that record twice, while [Stats]
    counts it once (as Pending, the old record's count being gone). *)
Theorem Add_existing_id (m : Manager) (id src dst : string) (old : Transfer) :
  map_Forall (fun k r => ID r = k) (transfers m) ->
  transfers m !! id = Some old ->
  count_occ string_dec (order m) id = 1%nat ->
  snd (Add m id src dst) = new_transfer id src dst /\
  Status (new_transfer id src dst) = StatusPending /\
  Progress (new_transfer id src dst) = f64_of_Z 0 /\
  BytesCopied (new_transfer id src dst) = 0 /\
  BytesTotal (new_transfer id src dst) = 0 /\
  Get (fst (Add m id src dst)) id = Some (new_transfer id src dst) /\
  order (fst (Add m id src dst)) = order m ++ [id] /\
  List.filter (fun r => String.eqb (ID r) id) (GetAll (fst (Add m id src dst))) =
    [new_transfer id src dst; new_transfer id src dst] /\
  Stats m = count_status (Status old) (stats_of (delete id (transfers m))) /\
  Stats (fst (Add m id src dst)) =
    count_status StatusPending (stats_of (delete id (transfers m))).
Proof.
  intros Hwf Hold Hocc.
  do 5 (split; [reflexivity|]).
  split; [apply lookup_insert_eq|].
  split; [reflexivity|].
  split.
  - unfold GetAll; simpl. rewrite GetAll_filter_id by (auto; reflexivity).
    rewrite count_occ_app, Hocc. simpl. destruct (string_dec id id); [reflexivity|congruence].
  - split.
    + unfold Stats. rewrite <- (insert_id (transfers m) id old Hold) at 1.
      apply stats_of_insert.
    + apply stats_of_insert.
Qed.

Lemma Add_existing_id_witness :
  let m := fst (Add NewManager "t1" "src" "dst") in
  List.filter (fun r => String.eqb (ID r) "t1") (GetAll (fst (Add m "t1" "src2" "dst2"))) =
    [new_transfer "t1" "src2" "dst2"; new_transfer "t1" "src2" "dst2"] /\
  Stats (fst (Add m "t1" "src2" "dst2")) =
    count_status StatusPending (stats_of (delete "t1" (transfers m))).
Proof.
  intros m.
  destruct (Add_existing_id m "t1" "src2" "dst2" (new_transfer "t1" "src" "dst"))
    as (_ & _ & _ & _ & _ & _ & _ & Hf & _ & Hs).
  - simpl. apply map_Forall_insert_2; [reflexivity|apply map_Forall_empty].
  - reflexivity.
  - reflexivity.
  - split; [exact Hf|exact Hs].
Defined.

(* ------------------------------------------------------------------ *)
(** ** Size parsing *)

Lemma upper_char_space (c : ascii) : ascii_space (upper_char c) = ascii_space c.
Proof. destruct c as [[] [] [] [] [] [] [] []]; reflexivity. Qed.

Lemma drop_spaces_map_upper (l : list ascii) :
  drop_spaces (map upper_char l) = map upper_char (drop_spaces l).
Proof.
  induction l as [|c l IH]; [reflexivity|].
  simpl. rewrite upper_char_space. destruct (ascii_space c); [exact IH|reflexivity].
Qed.

(** Upper-casing commutes with [strings.TrimSpace]. *)
Lemma to_upper_trim_space (v : string) :
  to_upper (trim_space v) = trim_space (to_upper v).
Proof.
  unfold to_upper, trim_space.
  rewrite !list_ascii_of_string_of_list_ascii.
  rewrite drop_spaces_map_upper, <- map_rev, drop_spaces_map_upper, <- map_rev.
  reflexivity.
Qed.

(** C4 (as the code does it): for the value ["1.5"] and every spelling
    [v] of a unit of [B, K, KB, KiB, M, MB, MiB, G, GB, GiB] in any letter
    case, or the empty unit, [parseSize] returns the int64 truncation of
    [1.5 * 1024^n]: 1 for [B] and for the empty unit, and exactly
    [1.5 * 1024^n] (1536, 1572864, 1610612736) for K, M and G. *)
Theorem parseSize_one_and_a_half (u v : string) (n : Z) :
  In (u, n) unit_orders -> to_upper v = u ->
  parseSize "1.5" v = 3 * 1024 ^ n / 2.
Proof.
  intros Hin Hv. unfold parseSize.
  replace (parse_float "1.5") with (Some (F64 3 (-1))) by reflexivity.
  cbv zeta. rewrite to_upper_trim_space, Hv.
  simpl in Hin.
  repeat (destruct Hin as [Hin|Hin]; [injection Hin as <- <-; reflexivity|]).
  contradiction.
Qed.

Lemma parseSize_one_and_a_half_witness :
  parseSize "1.5" "kIb" = 3 * 1024 ^ 1 / 2 /\ parseSize "1.5" "b" = 3 * 1024 ^ 0 / 2.
Proof.
  split.
  - apply (parseSize_one_and_a_half "KIB"); [simpl; tauto|reflexivity].
  - apply (parseSize_one_and_a_half "B"); [simpl; tauto|reflexivity].
Defined.

(** C4 counterexample: for unit [B] the byte count is 1, not 1.5. *)
Lemma parseSize_byte_unit_truncates :
  parseSize "1.5" "B" = 1 /\ parseSize "1.5" "" = 1 /\ 2 * parseSize "1.5" "B" <> 3.
Proof. vm_compute. split; [reflexivity|split; [reflexivity|discriminate]]. Qed.

(* ------------------------------------------------------------------ *)
(** ** Decoding a stats line end to end *)

(** Whether the stream arrives in one read or is cut into two reads at
    any position, the scanner yields the line once. *)
Lemma tokens_c2_stream (k : nat) :
  map string_of_list_ascii (tokens [firstn k c2_stream; skipn k c2_stream]) = [c2_text].
Proof.
  destruct (Nat.le_gt_cases (length c2_stream) k) as [Hk|Hk].
  - rewrite firstn_all2, skipn_all2 by exact Hk. vm_compute. reflexivity.
  - assert (Hl : length c2_stream = 61%nat) by reflexivity. rewrite Hl in Hk.
    do 61 (destruct k as [|k]; [vm_compute; reflexivity|]). lia.
Qed.

Lemma tokens_c2_one_read :
  map string_of_list_ascii (tokens [c2_stream]) = [c2_text].
Proof. vm_compute. reflexivity. Qed.

Lemma process_c2_text (m : Manager) :
  fold_left (process_line "t1") [c2_text] m =
  UpdateProgress m "t1" (f64_of_Z 50) (512 * 1024 * 1024) (1024 ^ 3).
Proof.
  simpl fold_left. unfold process_line.
  replace (String.eqb c2_text "") with false by reflexivity.
  replace (parse_line c2_text)
    with (Some (f64_of_Z 50, 512 * 1024 * 1024, 1024 ^ 3)) by (vm_compute; reflexivity).
  reflexivity.
Qed.

(** C2: with ["t1"] added and started (in any store), feeding the
    decoder the line
    ["Transferred:   512.0 MiB / 1.0 GiB, 50%, 10.0 MiB/s, ETA 30s\r"]
    (in one read, or split into two reads anywhere) leaves [Get "t1"]
    with Progress 50, BytesCopied [512 * 1024 * 1024 = 536870912] and
    BytesTotal [1024^3 = 1073741824]. *)
Theorem decode_stats_line_t1 (m : Manager) (src dst : string) (now : Z)
    (rd : list (list ascii)) :
  rd = [c2_stream] \/ (exists k, rd = [firstn k c2_stream; skipn k c2_stream]) ->
  exists t,
    Get (parseRcloneOutput rd "t1" (Start (fst (Add m "t1" src dst)) "t1" now)) "t1" = Some t /\
    Progress t = f64_of_Z 50 /\
    BytesCopied t = 536870912 /\
    BytesTotal t = 1073741824.
Proof.
  intros Hrd. unfold parseRcloneOutput.
  assert (Ht : map string_of_list_ascii (tokens rd) = [c2_text]).
  { destruct Hrd as [->|[k ->]]; [apply tokens_c2_one_read|apply tokens_c2_stream]. }
  rewrite Ht, process_c2_text.
  assert (H1 : transfers (Start (fst (Add m "t1" src dst)) "t1" now) !! "t1" =
               Some (MkTransfer "t1" src dst StatusInProgress (f64_of_Z 0) 0 0 now 0 None)).
  { unfold Start, with_transfer, Add. cbn [fst transfers].
    rewrite lookup_insert_eq. cbn [transfers]. rewrite lookup_insert_eq. reflexivity. }
  unfold UpdateProgress, with_transfer. rewrite H1.
  unfold Get. cbn [transfers]. rewrite lookup_insert_eq.
  eexists. split; [reflexivity|]. cbn. repeat split.
Qed.

Lemma decode_stats_line_t1_witness :
  exists t,
    Get (parseRcloneOutput [firstn 30 c2_stream; skipn 30 c2_stream] "t1"
           (Start (fst (Add NewManager "t1" "/data/a.bin" "remote:a.bin")) "t1" 1)) "t1"
      = Some t /\
    Progress t = f64_of_Z 50 /\ BytesCopied t = 536870912 /\ BytesTotal t = 1073741824.
Proof.
  apply decode_stats_line_t1. right. exists 30%nat. reflexivity.
Defined.

(* ------------------------------------------------------------------ *)
(** ** Line splitting across reads *)

(** C1 (failing input): the stream ["a\r\nb"] whose [\r] and [\n] arrive
    in two successive reads (["a\r"], then ["\nb"]) is split into the
    tokens ["a"], [""] and ["b"]: the split function returns the token at
    the [\r] without waiting to see whether a [\n] follows, and the [\n]
    then ends an empty token. *)
Theorem split_crlf_across_reads :
  map string_of_list_ascii
    (tokens [list_ascii_of_string "a" ++ [CR]; LF :: list_ascii_of_string "b"]) =
  ["a"; ""; "b"].
Proof. vm_compute. reflexivity. Qed.

(** *** Streams delivered in a single read *)

Lemma index_crlf_none (l : list ascii) : no_crlf l -> index_crlf l = None.
Proof.
  induction 1 as [|c l Hc _ IH]; [reflexivity|]. simpl. rewrite Hc, IH. reflexivity.
Qed.

Lemma index_crlf_some (pre rest : list ascii) (c : ascii) :
  no_crlf pre -> is_crlf c = true -> index_crlf (pre ++ c :: rest) = Some (length pre).
Proof.
  induction 1 as [|x l Hx _ IH]; intros Hc; simpl; [rewrite Hc; reflexivity|].
  rewrite Hx, IH by exact Hc. reflexivity.
Qed.

(** Every byte list either has no terminator or splits at its first one. *)
Lemma first_terminator (l : list ascii) :
  no_crlf l \/
  exists pre c rest, l = pre ++ c :: rest /\ no_crlf pre /\ is_crlf c = true.
Proof.
  induction l as [|x l IH]; [left; constructor|].
  destruct (is_crlf x) eqn:Hx.
  - right. exists [], x, l. split; [reflexivity|split; [constructor|exact Hx]].
  - destruct IH as [H|(pre & c & rest & -> & Hp & Hc)].
    + left. constructor; assumption.
    + right. exists (x :: pre), c, rest.
      split; [reflexivity|split; [constructor; assumption|exact Hc]].
Qed.

Lemma spec_lines_from_app (pre s cur : list ascii) :
  no_crlf pre ->
  spec_lines_from (pre ++ s) cur = spec_lines_from s (rev pre ++ cur).
Proof.
  intros H. revert cur. induction H as [|c l Hc _ IH]; intros cur; [reflexivity|].
  simpl. unfold is_crlf in Hc. apply orb_false_iff in Hc as [H1 H2].
  rewrite H1, H2, IH. rewrite <- app_assoc. reflexivity.
Qed.

Lemma is_crlf_cases (c : ascii) :
  is_crlf c = true -> (c = CR /\ Ascii.eqb c LF = false) \/ (c = LF /\ Ascii.eqb c CR = false).
Proof.
  unfold is_crlf. intros H. apply orb_true_iff in H as [H|H];
    apply Ascii.eqb_eq in H; subst; [left|right]; split; reflexivity.
Qed.

Lemma split_at_terminator (pre rest : list ascii) (c : ascii) (eof : bool) :
  no_crlf pre -> is_crlf c = true ->
  split (pre ++ c :: rest) eof = (S (length pre) + crlf_extra c rest, Some pre)%nat.
Proof.
  intros Hp Hc. unfold split.
  rewrite length_app. simpl length.
  replace ((length pre + S (length rest) =? 0)%nat) with false
    by (symmetry; apply Nat.eqb_neq; lia).
  rewrite andb_false_r, index_crlf_some by assumption.
  rewrite firstn_app, Nat.sub_diag, firstn_O, app_nil_r, firstn_all.
  rewrite app_nth2, Nat.sub_diag by lia. simpl nth.
  rewrite app_nth2 by lia. replace (S (length pre) - length pre)%nat with 1%nat by lia.
  unfold crlf_extra. destruct rest as [|c' rest'].
  - simpl nth. rewrite andb_false_r.
    destruct (Ascii.eqb c CR); simpl; f_equal; lia.
  - replace (S (length pre) <? length pre + S (length (c' :: rest')))%nat with true
      by (symmetry; apply Nat.ltb_lt; simpl; lia).
    simpl nth. simpl andb.
    destruct (Ascii.eqb c CR), (Ascii.eqb c' LF); simpl; f_equal; lia.
Qed.

Lemma split_no_terminator (data : list ascii) :
  no_crlf data -> split data false = (O, None).
Proof. intros H. unfold split. simpl. rewrite index_crlf_none by exact H. reflexivity. Qed.

Lemma spec_lines_from_CR_cons (c' : ascii) (r cur : list ascii) :
  spec_lines_from (CR :: c' :: r) cur =
  if Ascii.eqb c' LF then rev cur :: spec_lines_from r []
  else rev cur :: spec_lines_from (c' :: r) [].
Proof. reflexivity. Qed.

(** With all data in the buffer, repeated splitting yields the logical
    lines. *)
Lemma split_all_spec_lines (n : nat) :
  forall data, (length data < n)%nat -> split_all n data = spec_lines data.
Proof.
  induction n as [|n IH]; intros data Hlen; [lia|].
  destruct (first_terminator data) as [H|(pre & c & rest & -> & Hp & Hc)].
  - simpl. rewrite split_no_terminator by exact H.
    unfold spec_lines. rewrite <- (app_nil_r data) at 2.
    rewrite spec_lines_from_app by exact H. rewrite app_nil_r.
    destruct data as [|x data']; [reflexivity|].
    simpl. destruct (rev data' ++ [x]) eqn:E.
    + apply (f_equal (@length ascii)) in E. rewrite length_app in E. simpl in E. lia.
    + rewrite <- E, rev_app_distr, rev_involutive. reflexivity.
  - simpl. rewrite split_at_terminator by assumption.
    replace (skipn (S (length pre) + crlf_extra c rest) (pre ++ c :: rest))
      with (skipn (crlf_extra c rest) rest).
    2:{ rewrite skipn_app. replace (S (length pre) + crlf_extra c rest - length pre)%nat
          with (S (crlf_extra c rest)) by lia.
        rewrite (skipn_all2 pre) by lia. reflexivity. }
    rewrite length_app in Hlen. simpl in Hlen.
    rewrite IH by (rewrite length_skipn; lia).
    unfold spec_lines. rewrite spec_lines_from_app by exact Hp. rewrite app_nil_r.
    apply is_crlf_cases in Hc as [[-> H]|[-> H]].
    + unfold crlf_extra. rewrite Ascii.eqb_refl.
      destruct rest as [|c' rest']; [cbn; rewrite rev_involutive; reflexivity|].
      rewrite spec_lines_from_CR_cons, rev_involutive.
      destruct (Ascii.eqb c' LF); reflexivity.
    + unfold crlf_extra. rewrite H. simpl. rewrite rev_involutive. reflexivity.
Qed.

Lemma split_token_advance (data tok : list ascii) (adv : nat) :
  split data false = (adv, Some tok) -> (1 <= adv <= length data)%nat.
Proof.
  destruct (first_terminator data) as [H|(pre & c & rest & -> & Hp & Hc)].
  - rewrite split_no_terminator by exact H. discriminate.
  - rewrite split_at_terminator by assumption. injection 1 as <- _.
    rewrite length_app. simpl. unfold crlf_extra.
    destruct (Ascii.eqb c CR); [destruct rest as [|c' r]; [|destruct (Ascii.eqb c' LF)]|];
      simpl; lia.
Qed.

Lemma loop_token (f : nat) (st : scanner) (data tok : list ascii) (adv : nat) :
  buffered st data -> split data false = (adv, Some tok) ->
  scan_loop (S f) st = (Some tok, sc_advance st adv) /\
  buffered (sc_advance st adv) (skipn adv data).
Proof.
  intros Hb Hs. pose proof (split_token_advance _ _ _ Hs) as Ha.
  destruct st as [L a b d rd eof dn].
  destruct Hb as (HL & Hd & Hr & He & Hdn & H0 & Hab & Hb); simpl in *; subst.
  split.
  - cbn [scan_loop sc_start sc_end sc_eof sc_data].
    replace (a <? b) with true by (symmetry; apply Z.ltb_lt; lia).
    simpl orb. rewrite Hs. reflexivity.
  - unfold buffered, sc_advance; simpl. rewrite length_skipn.
    repeat split; try reflexivity; lia.
Qed.

Lemma loop_rest (f : nat) (st : scanner) (data : list ascii) :
  buffered st data -> no_crlf data -> data <> [] ->
  exists st', scan_loop (S (S f)) st = (Some data, st') /\
    sc_eof st' = true /\ sc_data st' = [] /\ sc_done st' = false.
Proof.
  intros Hb Hn Hne.
  destruct st as [L a b d rd eof dn].
  destruct Hb as (HL & Hd & Hr & He & Hdn & H0 & Hab & Hb); simpl in *; subst.
  assert (Hl : (0 < length data)%nat) by (destruct data; [congruence|simpl; lia]).
  cbn [scan_loop sc_start sc_end sc_eof sc_data].
  replace (a <? b) with true by (symmetry; apply Z.ltb_lt; lia).
  simpl orb. rewrite split_no_terminator by exact Hn.
  unfold sc_advance.
  cbn [sc_eof sc_start sc_end sc_len sc_data sc_reader sc_done].
  change (Z.of_nat 0) with 0. rewrite ?Z.add_0_r. cbn [skipn].
  destruct ((0 <? a) && ((b =? 64 * 1024) || (64 * 1024 / 2 <? a)));
    cbn [sc_shift sc_eof sc_start sc_end sc_len sc_data sc_reader sc_done].
  - replace (b - a =? 64 * 1024) with false by (symmetry; apply Z.eqb_neq; lia).
    cbn. unfold split. rewrite index_crlf_none by exact Hn.
    destruct data; [congruence|]. cbn. rewrite ?orb_true_r.
    eexists. split; [reflexivity|]. cbn. rewrite skipn_all. auto.
  - replace (b =? 64 * 1024) with false by (symmetry; apply Z.eqb_neq; lia).
    cbn. unfold split. rewrite index_crlf_none by exact Hn.
    destruct data; [congruence|]. cbn. rewrite ?orb_true_r.
    eexists. split; [reflexivity|]. cbn. rewrite skipn_all. auto.
Qed.

Lemma loop_empty (f : nat) (st : scanner) :
  buffered st [] -> exists st', scan_loop (S (S f)) st = (None, st').
Proof.
  intros Hb. destruct st as [L a b d rd eof dn].
  destruct Hb as (HL & Hd & Hr & He & Hdn & H0 & Hab & Hb); simpl in *; subst.
  cbn [scan_loop sc_start sc_end sc_eof sc_data].
  replace (a <? b) with false by (symmetry; apply Z.ltb_ge; lia).
  cbn [orb sc_eof sc_start sc_end sc_len].
  destruct ((0 <? a) && ((b =? 64 * 1024) || (64 * 1024 / 2 <? a)));
    cbn [sc_shift sc_eof sc_start sc_end sc_len sc_data sc_reader sc_done].
  - replace (b - a =? 64 * 1024) with false by (symmetry; apply Z.eqb_neq; lia).
    cbn. rewrite orb_true_r. cbn. eexists. reflexivity.
  - replace (b =? 64 * 1024) with false by (symmetry; apply Z.eqb_neq; lia).
    cbn. rewrite orb_true_r. cbn. eexists. reflexivity.
Qed.

Lemma loop_eof_empty (f : nat) (st : scanner) :
  sc_eof st = true -> sc_data st = [] ->
  exists st', scan_loop (S f) st = (None, st').
Proof.
  intros He Hd. destruct st as [L a b d rd eof dn]; simpl in *; subst.
  cbn. rewrite orb_true_r. cbn. eexists. reflexivity.
Qed.

Lemma split_none_no_crlf (data : list ascii) (adv : nat) :
  split data false = (adv, None) -> no_crlf data.
Proof.
  destruct (first_terminator data) as [H|(pre & c & rest & -> & Hp & Hc)];
    [auto|].
  rewrite split_at_terminator by assumption. discriminate.
Qed.

(** Repeated [Scan] calls on a buffered stream yield [split_all]. *)
Lemma scan_tokens_buffered (k : nat) :
  forall data st0 st lf f0, buffered st data -> (length data < k)%nat ->
  (2 <= lf)%nat -> (2 <= f0)%nat -> sc_done st0 = false ->
  scan_loop lf st0 = scan_loop f0 st ->
  scan_tokens (S k) lf st0 = split_all k data.
Proof.
  induction k as [|k IH]; intros data st0 st lf f0 Hb Hk Hlf Hf0 Hd0 Hloop;
    [lia|].
  cbn [scan_tokens split_all]. rewrite Hd0, Hloop.
  destruct (split data false) as [adv [tok|]] eqn:Hs.
  - destruct f0 as [|f0]; [lia|].
    destruct (loop_token f0 st data tok adv Hb Hs) as [Hl Hb'].
    rewrite Hl. f_equal.
    pose proof (split_token_advance _ _ _ Hs).
    apply (IH _ _ (sc_advance st adv) lf lf Hb'); auto.
    + rewrite length_skipn. lia.
    + destruct Hb' as (_ & _ & _ & _ & Hd & _). exact Hd.
  - pose proof (split_none_no_crlf _ _ Hs) as Hn.
    destruct f0 as [|[|f0]]; [lia|lia|].
    destruct data as [|x xs].
    + destruct (loop_empty f0 st Hb) as [st' ->]. reflexivity.
    + destruct (loop_rest f0 st (x :: xs) Hb Hn ltac:(discriminate))
        as (st' & -> & He & Hd & Hdn).
      f_equal. destruct k as [|k]; [simpl in Hk; lia|].
      cbn [scan_tokens]. rewrite Hdn.
      destruct lf as [|lf]; [lia|].
      destruct (loop_eof_empty lf st' He Hd) as [st'' ->]. reflexivity.
Qed.

(** The first [Scan] call reads a short single chunk whole. *)
Lemma first_read (s : list ascii) :
  s <> [] -> (length s < 64 * 1024)%nat ->
  exists st, buffered st s /\
    forall g, scan_loop (S g) (new_scanner [s]) = scan_loop g st.
Proof.
  intros Hne Hl. destruct s as [|x xs]; [congruence|].
  eexists. split; [|intros g; reflexivity].
  unfold buffered; cbn -[Z.mul length].
  assert (Hm : Z.min (64 * 1024 - 0) (Z.of_nat (length (x :: xs)))
               = Z.of_nat (length (x :: xs))) by (apply Z.min_r; lia).
  rewrite Hm, Nat2Z.id, firstn_all, skipn_all. repeat split; try reflexivity; lia.
Qed.

(** A stream that arrives in one short read is split into exactly its
    logical lines: the phantom token needs a read boundary. *)
Lemma tokens_single_read (s : list ascii) :
  s <> [] -> (length s < 64 * 1024)%nat -> tokens [s] = spec_lines s.
Proof.
  intros Hne Hl. destruct (first_read s Hne Hl) as (st & Hb & Hfirst).
  unfold tokens, scan_fuel.
  rewrite <- (split_all_spec_lines (2 * length s + 16)) by lia.
  replace (2 * total_bytes [s] + length [s] + 16)%nat
    with (S (2 * length s + 16)) by (cbn; lia).
  apply (scan_tokens_buffered _ s _ st _ (2 * length s + 16) Hb); try lia.
  - reflexivity.
  - apply Hfirst.
Qed.

(** ** Remote paths, listings and duplicates *)

Lemma append_cons (c : ascii) (a b : string) :
  (String c a +:+ b)%string = String c (a +:+ b).
Proof. reflexivity. Qed.

Lemma append_nil (b : string) : (EmptyString +:+ b)%string = b.
Proof. reflexivity. Qed.

Lemma list_ascii_append (a b : string) :
  list_ascii_of_string (a +:+ b) = list_ascii_of_string a ++ list_ascii_of_string b.
Proof. induction a as [|c a IH]; [reflexivity|]. rewrite append_cons. cbn. now rewrite IH. Qed.

Lemma string_of_list_app (a b : list ascii) :
  string_of_list_ascii (a ++ b) = (string_of_list_ascii a +:+ string_of_list_ascii b)%string.
Proof. induction a as [|c a IH]; [reflexivity|]. cbn. rewrite append_cons. now rewrite IH. Qed.

Lemma contains_char (s : string) (c : ascii) :
  contains s (String c EmptyString) = existsb (Ascii.eqb c) (list_ascii_of_string s).
Proof.
  induction s as [|a s IH]; cbn; [reflexivity|].
  rewrite IH. destruct (ascii_dec c a) as [->|Hne].
  - rewrite Ascii.eqb_refl. destruct s; reflexivity.
  - apply Ascii.eqb_neq in Hne. now rewrite Hne.
Qed.

Lemma existsb_eqb_false (c : ascii) (l : list ascii) :
  existsb (Ascii.eqb c) l = false <-> ~ In c l.
Proof.
  induction l as [|x l IH]; cbn; [tauto|].
  rewrite orb_false_iff, IH. destruct (Ascii.eqb_spec c x); subst; intuition congruence.
Qed.

Lemma break_at_app (sep : ascii) (a b : list ascii) :
  ~ In sep a -> break_at sep (a ++ sep :: b) = Some (a, b).
Proof.
  induction a as [|c a IH]; intros Hn; cbn.
  - now rewrite Ascii.eqb_refl.
  - destruct (Ascii.eqb_spec c sep) as [->|_]; [exfalso; apply Hn; now left|].
    rewrite IH; [reflexivity | intros H; apply Hn; now right].
Qed.

Lemma break_at_some (sep : ascii) (l a b : list ascii) :
  break_at sep l = Some (a, b) -> l = a ++ sep :: b /\ ~ In sep a.
Proof.
  revert a b; induction l as [|c l IH]; intros a b H; cbn in H; [discriminate|].
  destruct (Ascii.eqb_spec c sep) as [->|Hne].
  - injection H as <- <-. split; [reflexivity | intros []].
  - destruct (break_at sep l) as [[a' b']|] eqn:E; [|discriminate].
    injection H as <- <-. destruct (IH a' b' eq_refl) as [-> Hn].
    split; [reflexivity|]. intros [H|H]; [congruence | tauto].
Qed.

Lemma break_at_none (sep : ascii) (l : list ascii) :
  break_at sep l = None -> ~ In sep l.
Proof.
  induction l as [|c l IH]; cbn; [tauto|].
  destruct (Ascii.eqb_spec c sep) as [->|Hne]; [discriminate|].
  destruct (break_at sep l) as [[]|]; [discriminate|].
  intros _ [H|H]; [congruence | now apply IH].
Qed.

Lemma split_on_app (sep : ascii) (a b : list ascii) :
  ~ In sep a -> split_on sep (a ++ sep :: b) = a :: split_on sep b.
Proof.
  induction a as [|c a IH]; intros Hn; cbn.
  - now rewrite Ascii.eqb_refl.
  - destruct (Ascii.eqb_spec c sep) as [->|_]; [exfalso; apply Hn; now left|].
    rewrite IH; [reflexivity | intros H; apply Hn; now right].
Qed.

Lemma split_on_none (sep : ascii) (a : list ascii) :
  ~ In sep a -> split_on sep a = [a].
Proof.
  induction a as [|c a IH]; intros Hn; cbn; [reflexivity|].
  destruct (Ascii.eqb_spec c sep) as [->|_]; [exfalso; apply Hn; now left|].
  rewrite IH; [reflexivity | intros H; apply Hn; now right].
Qed.

Lemma split_on_head (sep : ascii) (l : list ascii) :
  exists rest, split_on sep l = take_while (fun c => negb (Ascii.eqb c sep)) l :: rest.
Proof.
  induction l as [|c l [rest IH]]; cbn; [now exists []|].
  destruct (Ascii.eqb_spec c sep); cbn.
  - now exists (split_on sep l).
  - rewrite IH. now exists rest.
Qed.

(** X1: joining the two parts that [SplitRemotePath] returns with
    [JoinRemotePath] rebuilds the path exactly when the path does not
    start with ':'; for [":x"] the remote part is empty and the colon is
    lost. *)
Theorem JoinRemotePath_SplitRemotePath (p : string) :
  JoinRemotePath (fst (SplitRemotePath p)) (snd (SplitRemotePath p)) = p <->
  String.prefix ":" p = false.
Proof.
  rewrite <- (string_of_list_ascii_of_string p).
  generalize (list_ascii_of_string p) as l; intros l.
  unfold SplitRemotePath, strings_SplitN2.
  rewrite list_ascii_of_string_of_list_ascii.
  destruct (break_at ":" l) as [[a b]|] eqn:E.
  - destruct (break_at_some _ _ _ _ E) as [-> Hn]. cbn [fst snd].
    unfold JoinRemotePath. destruct a as [|c a].
    + cbn. split; intros H.
      * apply (f_equal String.length) in H. cbn in H. lia.
      * now destruct (string_of_list_ascii b).
    + assert (Hc : c <> ":"%char) by (intros ->; apply Hn; now left).
      cbn [string_of_list_ascii app]. cbn [String.eqb].
      rewrite string_of_list_app. cbn [string_of_list_ascii String.prefix].
      destruct (ascii_dec ":" c) as [H|_]; [congruence|].
      split; intros _; reflexivity.
  - apply break_at_none in E. cbn [fst snd]. unfold JoinRemotePath; cbn.
    destruct l as [|c l]; cbn [string_of_list_ascii String.prefix]; [split; reflexivity|].
    destruct (ascii_dec ":" c) as [<-|_]; [exfalso; apply E; now left | split; reflexivity].
Qed.

(** X2: for a non-empty remote name without ':', [JoinRemotePath] builds a
    path that [IsRemotePath] recognises and that [SplitRemotePath] splits
    back into the same remote name and path (the path itself may contain
    ':'). *)
Theorem SplitRemotePath_JoinRemotePath (remote path : string)
    (Hne : remote <> ""%string) (Hcolon : contains remote ":" = false) :
  SplitRemotePath (JoinRemotePath remote path) = (remote, path) /\
  IsRemotePath (JoinRemotePath remote path) = true.
Proof.
  unfold JoinRemotePath.
  destruct (String.eqb_spec remote "") as [|_]; [contradiction|].
  rewrite contains_char, existsb_eqb_false in Hcolon.
  unfold SplitRemotePath, IsRemotePath, strings_SplitN2.
  rewrite contains_char, !list_ascii_append. cbn [list_ascii_of_string app].
  rewrite break_at_app by exact Hcolon.
  rewrite !string_of_list_ascii_of_string. split; [reflexivity|].
  rewrite existsb_app. apply orb_true_iff. right. reflexivity.
Qed.

Lemma drop_spaces_keep (l m : list ascii) :
  match l with c :: _ => ascii_space c = false | [] => False end ->
  drop_spaces (l ++ m) = l ++ m.
Proof. destruct l as [|c l]; [contradiction|]. intros H. cbn. now rewrite H. Qed.

Lemma lines_output_app (xs : list string) :
  xs <> [] ->
  list_ascii_of_string (lines_output xs) = joinl (map list_ascii_of_string xs) ++ [LF].
Proof.
  induction xs as [|x xs IH]; intros Hne; [congruence|].
  cbn [lines_output fold_right]. rewrite list_ascii_append. cbn [list_ascii_of_string].
  destruct xs as [|y ys].
  - cbn. reflexivity.
  - fold (lines_output (y :: ys)). rewrite IH by discriminate.
    cbn [map joinl]. now rewrite <- app_assoc.
Qed.

Lemma joinl_cons (x : list ascii) (xs : list (list ascii)) :
  exists r, joinl (x :: xs) = x ++ r.
Proof. destruct xs; [exists []; now rewrite app_nil_r | eexists; reflexivity]. Qed.

Lemma joinl_last (xs : list (list ascii)) :
  xs <> [] -> exists r, joinl xs = r ++ List.last xs [].
Proof.
  induction xs as [|x xs IH]; intros Hne; [congruence|].
  destruct xs as [|y ys].
  - exists []. reflexivity.
  - destruct IH as [r Hr]; [discriminate|].
    exists (x ++ LF :: r).
    change (joinl (x :: y :: ys)) with (x ++ LF :: joinl (y :: ys)).
    change (List.last (x :: y :: ys) []) with (List.last (y :: ys) []).
    rewrite Hr. now rewrite <- app_assoc.
Qed.

Lemma split_on_joinl (xs : list (list ascii)) :
  xs <> [] -> Forall (fun x => ~ In LF x) xs -> split_on LF (joinl xs) = xs.
Proof.
  induction xs as [|x xs IH]; intros Hne Hf; [congruence|].
  inversion Hf as [|? ? Hx Hxs]; subst.
  destruct xs as [|y ys].
  - cbn. now apply split_on_none.
  - cbn [joinl]. rewrite split_on_app by exact Hx. f_equal. apply IH; [discriminate | exact Hxs].
Qed.

Lemma list_last_map {A B} (f : A -> B) (l : list A) (d : A) :
  List.last (map f l) (f d) = f (List.last l d).
Proof. induction l as [|x [|y l] IH]; [reflexivity | reflexivity | exact IH]. Qed.

Lemma no_lead_space_head (s : string) :
  no_lead_space s = true ->
  match list_ascii_of_string s with c :: _ => ascii_space c = false | [] => False end.
Proof. unfold no_lead_space. destruct (list_ascii_of_string s); [discriminate|]. now destruct (ascii_space a). Qed.

Lemma no_trail_space_head (s : string) :
  no_trail_space s = true ->
  match rev (list_ascii_of_string s) with c :: _ => ascii_space c = false | [] => False end.
Proof. unfold no_trail_space. destruct (rev (list_ascii_of_string s)); [discriminate|]. now destruct (ascii_space a). Qed.

(** [strings.TrimSpace] of the output of a line printer whose first line
    does not start and whose last line does not end with white space: the
    lines joined with newlines; splitting that at the newlines gives the
    lines back. *)
Lemma split_trim_lines_output (lines : list string) :
  lines <> [] ->
  Forall (fun l => contains l (String LF EmptyString) = false) lines ->
  no_lead_space (hd ""%string lines) = true ->
  no_trail_space (List.last lines ""%string) = true ->
  strings_Split (trim_space (lines_output lines)) LF = lines.
Proof.
  intros Hne Hlf Hl Ht.
  unfold strings_Split, trim_space.
  rewrite list_ascii_of_string_of_list_ascii.
  rewrite lines_output_app by exact Hne.
  set (xs := map list_ascii_of_string lines).
  assert (Hxs : xs <> []) by (subst xs; destruct lines; [congruence | discriminate]).
  destruct lines as [|l0 ls]; [congruence|].
  assert (E1 : drop_spaces (joinl xs ++ [LF]) = joinl xs ++ [LF]).
  { subst xs. cbn [map]. destruct (joinl_cons (list_ascii_of_string l0)
        (map list_ascii_of_string ls)) as [r ->].
    rewrite <- app_assoc. apply drop_spaces_keep. now apply no_lead_space_head. }
  rewrite E1, rev_app_distr. cbn [rev app drop_spaces].
  replace (ascii_space LF) with true by reflexivity.
  destruct (joinl_last xs Hxs) as [r Hr]. rewrite Hr, rev_app_distr.
  rewrite drop_spaces_keep.
  2:{ subst xs. change (@nil ascii) with (list_ascii_of_string ""%string).
      rewrite list_last_map. exact (no_trail_space_head _ Ht). }
  rewrite <- rev_app_distr, rev_involutive, <- Hr.
  rewrite split_on_joinl by
    (exact Hxs || (subst xs; apply Forall_map; eapply Forall_impl; [exact Hlf|];
     intros l Hc; cbn beta in Hc; now rewrite contains_char, existsb_eqb_false in Hc)).
  subst xs. rewrite map_map.
  erewrite map_ext; [apply map_id|]. intros a. apply string_of_list_ascii_of_string.
Qed.

Lemma fold_files (lines acc : list string) :
  fold_left (fun files line =>
    if String.eqb line "" then files else files ++ [trim_space line]) lines acc =
  acc ++ map trim_space (List.filter (fun l => negb (String.eqb l "")) lines).
Proof.
  revert acc; induction lines as [|l ls IH]; intros acc; cbn; [now rewrite app_nil_r|].
  rewrite IH. destruct (String.eqb l ""); cbn; [reflexivity|]. now rewrite <- app_assoc.
Qed.

Lemma fold_remotes (lines acc : list string) :
  fold_left (fun remotes line =>
    if String.eqb line "" then remotes
    else remotes ++ [trim_suffix (trim_space line) ":"]) lines acc =
  acc ++ map (fun l => trim_suffix (trim_space l) ":")
             (List.filter (fun l => negb (String.eqb l "")) lines).
Proof.
  revert acc; induction lines as [|l ls IH]; intros acc; cbn; [now rewrite app_nil_r|].
  rewrite IH. destruct (String.eqb l ""); cbn; [reflexivity|]. now rewrite <- app_assoc.
Qed.

(** X3: when [rclone lsf] prints ASCII lines without newlines inside
    them (the first not starting and the last not ending with white space),
    [ListFiles] returns, in order, every non-empty line trimmed of
    surrounding white space: an empty line is skipped, while a line of
    blanks becomes an empty file name. *)
Theorem ListFiles_output (lines : list string) (path : string) (recursive : bool)
    (Hascii : Forall (fun l => is_ascii l = true) lines)
    (Hlf : Forall (fun l => contains l (String LF EmptyString) = false) lines)
    (Hedge : lines = [] \/
             (no_lead_space (hd ""%string lines) = true /\
              no_trail_space (List.last lines ""%string) = true)) :
  ListFiles (fun _ => ROk (lines_output lines)) path recursive =
  ROk (map trim_space (List.filter (fun l => negb (String.eqb l "")) lines)).
Proof.
  unfold ListFiles. destruct Hedge as [->|[Hl Ht]]; [reflexivity|].
  destruct (decide (lines = [])) as [->|Hne]; [reflexivity|].
  rewrite split_trim_lines_output by assumption.
  f_equal. apply fold_files.
Qed.

(** X4: when [rclone listremotes] prints ASCII lines without newlines
    inside them (the first not starting and the last not ending with white
    space), [ListRemotes] returns, in order, every non-empty line trimmed
    of white space and then of one trailing ':'. *)
Theorem ListRemotes_output (lines : list string)
    (Hascii : Forall (fun l => is_ascii l = true) lines)
    (Hlf : Forall (fun l => contains l (String LF EmptyString) = false) lines)
    (Hedge : lines = [] \/
             (no_lead_space (hd ""%string lines) = true /\
              no_trail_space (List.last lines ""%string) = true)) :
  ListRemotes (fun _ => ROk (lines_output lines)) =
  ROk (map (fun l => trim_suffix (trim_space l) ":")
           (List.filter (fun l => negb (String.eqb l "")) lines)).
Proof.
  unfold ListRemotes. destruct Hedge as [->|[Hl Ht]]; [reflexivity|].
  destruct (decide (lines = [])) as [->|Hne]; [reflexivity|].
  rewrite split_trim_lines_output by assumption.
  f_equal. apply fold_remotes.
Qed.

(** X5: [GetRcloneVersion] fails only when the [rclone version] command
    fails (the error is wrapped); on success it returns the output up to
    the first newline, trimmed of white space (the empty string for an
    empty output), and never the "no version output" error. *)
Theorem GetRcloneVersion_first_line (run : list string -> result string) :
  GetRcloneVersion run =
  match run ["version"; "--check=false"]%string with
  | RErr err => RErr (ErrWrap "failed to get rclone version: " err)
  | ROk output =>
      ROk (trim_space (string_of_list_ascii
             (take_while (fun c => negb (Ascii.eqb c LF)) (list_ascii_of_string output))))
  end.
Proof.
  unfold GetRcloneVersion. destruct (run _) as [output|err]; [|reflexivity].
  unfold strings_Split.
  destruct (split_on_head LF (list_ascii_of_string output)) as [rest ->].
  reflexivity.
Qed.

Lemma fold_insert_true (xs : list string) (m0 : gmap string bool) (f : string) :
  fold_left (fun (m : gmap string bool) x => <[x := true]> m) xs m0 !! f =
  if bool_decide (f ∈ xs) then Some true else m0 !! f.
Proof.
  revert m0; induction xs as [|x xs IH]; intros m0; cbn [fold_left].
  - rewrite bool_decide_false; [reflexivity | apply not_elem_of_nil].
  - rewrite IH. case_bool_decide as H1; case_bool_decide as H2; try reflexivity.
    + exfalso. apply H2. apply elem_of_cons. now right.
    + apply elem_of_cons in H2 as [->|H2]; [now rewrite lookup_insert_eq | contradiction].
    + rewrite lookup_insert_ne; [reflexivity|]. intros ->. apply H2. apply elem_of_cons. now left.
Qed.

Lemma fold_duplicates (existing : gmap string bool) (fs : list string)
    (d0 : gmap string bool) (f : string) :
  fold_left (fun duplicates filename =>
    match existing !! filename with
    | Some true => <[filename := true]> duplicates
    | _ => duplicates
    end) fs d0 !! f =
  if bool_decide (f ∈ fs /\ existing !! f = Some true) then Some true else d0 !! f.
Proof.
  revert d0; induction fs as [|x fs IH]; intros d0; cbn [fold_left].
  - rewrite bool_decide_false; [reflexivity|]. intros [H _]. now apply not_elem_of_nil in H.
  - rewrite IH. case_bool_decide as H1; case_bool_decide as H2; try reflexivity.
    + exfalso. apply H2. split; [apply elem_of_cons; now right | apply H1].
    + destruct H2 as [H2 He]. apply elem_of_cons in H2 as [->|H2];
        [|exfalso; now apply H1].
      rewrite He. now rewrite lookup_insert_eq.
    + destruct (existing !! x) as [[|]|] eqn:Ex; try reflexivity.
      rewrite lookup_insert_ne; [reflexivity|]. intros ->.
      apply H2. split; [apply elem_of_cons; now left | exact Ex].
Qed.

(** X6: for a non-empty list of names and a successful listing of the
    destination, [CheckDuplicates] succeeds with a map that holds [true]
    exactly for the names that are in the list and in the listing, and
    has no other key. *)
Theorem CheckDuplicates_lookup (run : list string -> result string)
    (destination : string) (filenames files : list string)
    (Hne : filenames <> []) (Hls : ListFiles run destination false = ROk files) :
  exists d, CheckDuplicates run destination filenames = ROk d /\
    forall f, d !! f = if bool_decide (f ∈ filenames /\ f ∈ files) then Some true else None.
Proof.
  unfold CheckDuplicates.
  destruct filenames as [|x xs]; [congruence|]. cbn [length Nat.eqb].
  rewrite Hls. eexists; split; [reflexivity|]. intros f.
  rewrite fold_duplicates, fold_insert_true, lookup_empty.
  destruct (decide (f ∈ files)) as [Hf|Hf].
  - rewrite (bool_decide_true (f ∈ files)) by exact Hf.
    destruct (decide (f ∈ x :: xs)) as [Hx|Hx].
    + rewrite !bool_decide_true by tauto. reflexivity.
    + rewrite !bool_decide_false by tauto. reflexivity.
  - rewrite (bool_decide_false (f ∈ files)) by exact Hf.
    rewrite !bool_decide_false by (intros [_ H]; first [discriminate H | contradiction]).
    reflexivity.
Qed.

Lemma format_digits_rev (f g : nat) (i : Z) (acc : list ascii) :
  0 < i -> i < 10 ^ Z.of_nat f -> i < 10 ^ Z.of_nat g ->
  format_digits f i acc = rev (digits_rev g i) ++ acc.
Proof.
  revert g i acc; induction f as [|f IH]; intros g i acc Hi Hf Hg.
  - cbn in Hf. lia.
  - destruct g as [|g]; [cbn in Hg; lia|].
    cbn [format_digits digits_rev].
    replace (0 <? i) with true by lia.
    replace (byte_of (i mod 10 + 48)) with (ascii_of_nat (Z.to_nat (48 + i mod 10)))
      by (unfold byte_of; f_equal; f_equal; lia).
    destruct (Z.ltb_spec i 10) as [Hlt|Hge].
    + rewrite Z.div_small by lia. destruct f; reflexivity.
    + rewrite Nat2Z.inj_succ, Z.pow_succ_r in Hf, Hg by lia.
      rewrite IH with (g := g); [| apply Z.div_str_pos; lia
                                 | apply Z.div_lt_upper_bound; lia
                                 | apply Z.div_lt_upper_bound; lia].
      cbn [rev]. now rewrite <- app_assoc.
Qed.

Lemma lt_pow10_log2 (i : Z) : 0 < i -> i < 10 ^ Z.of_nat (S (Z.to_nat (Z.log2 i))).
Proof.
  intros Hi. rewrite Nat2Z.inj_succ, Z2Nat.id by apply Z.log2_nonneg.
  apply Z.lt_le_trans with (2 ^ Z.succ (Z.log2 i)); [apply Z.log2_spec; lia|].
  apply Z.pow_le_mono_l. split; [lia | lia].
Qed.

(** X7: [formatInt], which renders the numeric flags, gives the decimal
    digits of every non-negative number, as [%d] does. *)
Theorem formatInt_decimal (i : Z) (Hi : 0 <= i) : formatInt i = fmt_int i.
Proof.
  destruct (Z.ltb_spec i 10) as [Hlt|Hge].
  - assert (i = 0 \/ i = 1 \/ i = 2 \/ i = 3 \/ i = 4 \/ i = 5 \/ i = 6 \/ i = 7 \/
            i = 8 \/ i = 9) as Hc by lia.
    repeat destruct Hc as [->|Hc]; try (subst; reflexivity).
  - unfold formatInt, fmt_int.
    replace (i <? 10) with false by lia. replace (i <? 0) with false by lia.
    rewrite Z.abs_eq by lia. f_equal.
    rewrite format_digits_rev with (g := S (Z.to_nat (Z.log2 i)));
      [now rewrite app_nil_r | lia | apply lt_pow10_log2; lia | apply lt_pow10_log2; lia].
Qed.

Lemma fold_pattern_flags (flag : string) (ps acc : list string) :
  fold_left (fun flags pattern => flags ++ [flag; pattern]) ps acc =
  acc ++ concat (map (fun p => [flag; p]) ps).
Proof.
  revert acc; induction ps as [|p ps IH]; intros acc; cbn; [now rewrite app_nil_r|].
  rewrite IH. now rewrite <- app_assoc.
Qed.

(** X8: [ToFlags] emits, in this order, [--transfers], [--checkers] and
    [--bwlimit] (the latter with a [k] suffix) for the positive counts in
    decimal, the four switches that are on, a [--exclude] then a
    [--include] pair per pattern in list order, and [--min-age] and
    [--max-age] when set; a zero [CommonFlags] gives no flag at all. *)
Theorem ToFlags_layout (f : CommonFlags.t) :
  ToFlags f =
  opt_flag (0 <? CommonFlags.Transfers f)
           ["--transfers"; fmt_int (CommonFlags.Transfers f)]%string ++
  opt_flag (0 <? CommonFlags.Checkers f)
           ["--checkers"; fmt_int (CommonFlags.Checkers f)]%string ++
  opt_flag (0 <? CommonFlags.Bandwidth f)
           ["--bwlimit"; fmt_int (CommonFlags.Bandwidth f) +:+ "k"]%string ++
  opt_flag (CommonFlags.IgnoreChecksum f) ["--ignore-checksum"]%string ++
  opt_flag (CommonFlags.NoTraverse f) ["--no-traverse"]%string ++
  opt_flag (CommonFlags.Progress f) ["-P"]%string ++
  opt_flag (CommonFlags.Verbose f) ["-v"]%string ++
  concat (map (fun p => ["--exclude"; p]%string) (CommonFlags.Exclude f)) ++
  concat (map (fun p => ["--include"; p]%string) (CommonFlags.Include f)) ++
  opt_flag (negb (String.eqb (CommonFlags.MinAge f) "")) ["--min-age"; CommonFlags.MinAge f]%string ++
  opt_flag (negb (String.eqb (CommonFlags.MaxAge f) "")) ["--max-age"; CommonFlags.MaxAge f]%string.
Proof.
  destruct f as [tr ch bw ic nt pr vb ex inc mina maxa]. unfold ToFlags. cbn [CommonFlags.Transfers
    CommonFlags.Checkers CommonFlags.Bandwidth CommonFlags.IgnoreChecksum CommonFlags.NoTraverse
    CommonFlags.Progress CommonFlags.Verbose CommonFlags.Exclude CommonFlags.Include
    CommonFlags.MinAge CommonFlags.MaxAge].
  rewrite !fold_pattern_flags.
  assert (Hfi : forall n, (0 <? n) = true -> formatInt n = fmt_int n)
    by (intros n Hn; apply Z.ltb_lt in Hn; apply formatInt_decimal; lia).
  unfold opt_flag.
  destruct (0 <? tr) eqn:E1; [rewrite (Hfi tr E1)|];
  destruct (0 <? ch) eqn:E2; try rewrite (Hfi ch E2);
  destruct (0 <? bw) eqn:E3; try rewrite (Hfi bw E3);
  destruct ic, nt, pr, vb, (String.eqb mina ""), (String.eqb maxa "");
  cbn [negb]; rewrite <- ?app_assoc; cbn [app]; rewrite ?app_nil_r; reflexivity.
Qed.

Lemma fold_apply_call (calls : list builder_call) (t : RcloneOptions.t) :
  let t' := fold_left apply_call calls t in
  RcloneOptions.Command t' = fold_left call_command calls (RcloneOptions.Command t) /\
  RcloneOptions.Source t' = RcloneOptions.Source t /\
  RcloneOptions.Destination t' = RcloneOptions.Destination t /\
  RcloneOptions.Flags t' = RcloneOptions.Flags t ++ concat (map call_flags calls) /\
  RcloneOptions.StatsInterval t' = RcloneOptions.StatsInterval t /\
  RcloneOptions.DryRun t' = RcloneOptions.DryRun t || existsb is_dry_run calls.
Proof.
  revert t; induction calls as [|c calls IH]; intros t; cbn [fold_left].
  - cbn. rewrite app_nil_r, orb_false_r. repeat split.
  - destruct (IH (apply_call t c)) as (H1 & H2 & H3 & H4 & H5 & H6).
    rewrite H1, H2, H3, H4, H5, H6.
    destruct c; cbn; rewrite ?app_assoc, ?orb_true_r; repeat split.
Qed.

(** X9: whatever the sequence of [WithCommand], [WithFlags],
    [WithCommonFlags] and [WithDryRun] calls on [NewTransferOptions src
    dst], the command line that [Execute] builds from [Build()] is the
    last command set (["copy"] if none), [-v], [--stats 500ms],
    [--dry-run] if any call asked for it, the flags of the calls in call
    order, then source and destination. *)
Theorem TransferOptions_args (src dst : string) (calls : list builder_call) :
  execute_args (Build (fold_left apply_call calls (NewTransferOptions src dst))) =
  [fold_left call_command calls "copy"; "-v"; "--stats"; "500ms"]%string ++
  (if existsb is_dry_run calls then ["--dry-run"]%string else []) ++
  concat (map call_flags calls) ++ [src; dst].
Proof.
  destruct (fold_apply_call calls (NewTransferOptions src dst)) as (H1 & H2 & H3 & H4 & H5 & H6).
  unfold Build, execute_args. rewrite H1, H2, H3, H4, H5, H6. cbn.
  destruct (existsb is_dry_run calls); reflexivity.
Qed.

(** ** Validation *)

Lemma classify_validation (e : error) :
  as_validation e = true ->
  ClassifyError (Some e) = Some (MkClassifiedError ErrorTypeInvalidInput e false false).
Proof. intros H. unfold ClassifyError. now rewrite H. Qed.

(** X10: every error that [ValidateSourcePath], [ValidateDestinationPath]
    or [ValidateRemote] returns is a [ValidationError], which
    [ClassifyError] reports as invalid input, neither retryable nor
    temporary, whatever its message says; in particular a remote that
    cannot be reached because of a network failure or a timeout is not
    retried. *)
Theorem validation_errors_invalid_input (fs : FileSystem)
    (lsf : Z -> list string -> option (error * bool))
    (path remoteName : string) (timeout : Z) (e : error)
    (H : ValidateSourcePath fs path = Some e \/ ValidateDestinationPath fs path = Some e \/
         ValidateRemote lsf remoteName timeout = Some e) :
  ClassifyError (Some e) = Some (MkClassifiedError ErrorTypeInvalidInput e false false).
Proof.
  apply classify_validation.
  destruct H as [H|[H|H]].
  - unfold ValidateSourcePath in H.
    destruct (String.eqb path ""); [injection H as <-; reflexivity|].
    destruct (contains path ":"); [discriminate|].
    destruct (fs_stat fs path); try discriminate; injection H as <-; reflexivity.
  - unfold ValidateDestinationPath in H.
    destruct (String.eqb path ""); [injection H as <-; reflexivity|].
    destruct (contains path ":"); [discriminate|].
    destruct (negb _ && negb _); [|discriminate].
    destruct (fs_stat fs _); try discriminate; injection H as <-; reflexivity.
  - unfold ValidateRemote in H.
    destruct (String.eqb remoteName ""); [injection H as <-; reflexivity|].
    destruct (lsf _ _) as [[err [|]]|]; try discriminate; injection H as <-; reflexivity.
Qed.

Lemma drop_while_no_slash (l : list ascii) :
  ~ In "/"%char l -> drop_while (fun c => negb (Ascii.eqb c "/")) l = [].
Proof.
  induction l as [|c l IH]; intros Hn; cbn; [reflexivity|].
  destruct (Ascii.eqb_spec c "/") as [->|_]; [exfalso; apply Hn; now left|].
  apply IH. intros H; apply Hn; now right.
Qed.

(** X11: a non-empty local destination with no '/' (a bare file name in
    the working directory) is always accepted: its parent directory is
    ["."], which [ValidateDestinationPath] does not check. *)
Theorem ValidateDestinationPath_bare_name (fs : FileSystem) (path : string)
    (Hne : path <> ""%string) (Hslash : contains path "/" = false) :
  ValidateDestinationPath fs path = None.
Proof.
  unfold ValidateDestinationPath.
  destruct (String.eqb_spec path "") as [|_]; [contradiction|].
  destruct (contains path ":"); [reflexivity|].
  rewrite contains_char, existsb_eqb_false in Hslash.
  unfold Dir. rewrite drop_while_no_slash by (now rewrite <- in_rev). reflexivity.
Qed.

Lemma length_append (a b : string) :
  String.length (a +:+ b) = (String.length a + String.length b)%nat.
Proof. induction a as [|c a IH]; [reflexivity|]. rewrite append_cons. cbn. now rewrite IH. Qed.

Lemma substring_app_right (a b : string) :
  substring (String.length a) (String.length b) (a +:+ b) = b.
Proof.
  induction a as [|c a IH].
  - rewrite append_nil. cbn [String.length].
    induction b as [|d b IHb]; [reflexivity|]. cbn. now rewrite IHb.
  - rewrite append_cons. cbn. exact IH.
Qed.

Lemma substring_app_left (a b : string) :
  substring 0 (String.length a) (a +:+ b) = a.
Proof.
  induction a as [|c a IH]; [destruct b; reflexivity|].
  rewrite append_cons. cbn. now rewrite IH.
Qed.

Lemma trim_suffix_app (s suf : string) : trim_suffix (s +:+ suf) suf = s.
Proof.
  unfold trim_suffix. rewrite length_append.
  replace (String.length s + String.length suf - String.length suf)%nat
    with (String.length s) by lia.
  rewrite substring_app_right, String.eqb_refl.
  replace (String.length suf <=? String.length s + String.length suf)%nat with true
    by (symmetry; apply Nat.leb_le; lia).
  apply substring_app_left.
Qed.

(** X12: [ValidateRemote] treats ["name:"] as ["name"] for a non-empty
    name that does not itself end in ':', and a zero timeout as the
    default of ten seconds. *)
Theorem ValidateRemote_colon_timeout (lsf : Z -> list string -> option (error * bool))
    (name : string) (timeout : Z)
    (Hne : name <> ""%string) (Hnc : trim_suffix name ":" = name) :
  ValidateRemote lsf (name +:+ ":") timeout = ValidateRemote lsf name timeout /\
  ValidateRemote lsf name 0 = ValidateRemote lsf name (10 * second).
Proof.
  split.
  - unfold ValidateRemote. rewrite trim_suffix_app, Hnc.
    destruct (String.eqb_spec name "") as [|_]; [contradiction|].
    destruct name; [contradiction|]. reflexivity.
  - reflexivity.
Qed.

(** ** The disk space check and [ClassifyError] *)

Lemma length_list_ascii (s : string) : length (list_ascii_of_string s) = String.length s.
Proof. induction s; cbn; auto. Qed.

Lemma prefix_app_long (k x y : string) :
  (String.length k <= String.length x)%nat ->
  String.prefix k (x +:+ y) = String.prefix k x.
Proof.
  revert x; induction k as [|a k IH]; intros x Hl.
  - destruct (x +:+ y)%string, x; reflexivity.
  - destruct x as [|b x]; cbn in Hl; [lia|]. rewrite append_cons. cbn.
    destruct (ascii_dec a b); [apply IH; lia | reflexivity].
Qed.

Lemma prefix_app_short (k x y : string) :
  (String.length x < String.length k)%nat ->
  String.prefix k (x +:+ y) = true ->
  is_prefix (list_ascii_of_string x) (list_ascii_of_string k) = true.
Proof.
  revert k; induction x as [|b x IH]; intros k Hl Hp; [reflexivity|].
  destruct k as [|a k]; cbn in Hl; [lia|]. rewrite append_cons in Hp. cbn in Hp |- *.
  destruct (ascii_dec a b) as [->|]; [|discriminate].
  rewrite Ascii.eqb_refl. apply IH; [lia | exact Hp].
Qed.

Lemma prefix_short_false (k x : string) :
  (String.length x < String.length k)%nat -> String.prefix k x = false.
Proof.
  revert k; induction x as [|b x IH]; intros k Hl.
  - destruct k; [cbn in Hl; lia | reflexivity].
  - destruct k as [|a k]; cbn in Hl; [lia|]. cbn.
    destruct (ascii_dec a b); [apply IH; lia | reflexivity].
Qed.

Lemma contains_empty (k : string) : k <> ""%string -> contains "" k = false.
Proof. destruct k; [contradiction | reflexivity]. Qed.

Lemma contains_app_split (a b k : string) :
  k <> ""%string ->
  straddle_free (list_ascii_of_string a) (list_ascii_of_string k) = true ->
  contains (a +:+ b) k = contains a k || contains b k.
Proof.
  intros Hk. induction a as [|c a IH]; intros Hs.
  - rewrite append_nil, contains_empty by exact Hk. reflexivity.
  - rewrite append_cons. cbn [contains].
    cbn [list_ascii_of_string straddle_free] in Hs.
    apply andb_true_iff in Hs as [Hs1 Hs2]. rewrite (IH Hs2), orb_assoc. f_equal. f_equal.
    rewrite <- append_cons.
    destruct (Nat.le_gt_cases (String.length k) (String.length (String c a))) as [Hle|Hgt].
    + now apply prefix_app_long.
    + rewrite (prefix_short_false k (String c a)) by exact Hgt.
      destruct (String.prefix k (String c a +:+ b)) eqn:E; [|reflexivity].
      apply prefix_app_short in E; [|exact Hgt].
      cbn [list_ascii_of_string] in E.
      rewrite E in Hs1.
      replace (length (c :: list_ascii_of_string a) <? length (list_ascii_of_string k))%nat
        with true in Hs1 by (symmetry; apply Nat.ltb_lt;
          change (length (c :: list_ascii_of_string a))
            with (length (list_ascii_of_string (String c a)));
          rewrite !length_list_ascii; exact Hgt).
      discriminate.
Qed.

Lemma prefix_chars (k s : string) (x : ascii) :
  String.prefix k s = true -> In x (list_ascii_of_string k) -> In x (list_ascii_of_string s).
Proof.
  revert s; induction k as [|a k IH]; intros s Hp Hx; [destruct Hx|].
  destruct s as [|b s]; [discriminate|]. cbn in Hp.
  destruct (ascii_dec a b) as [->|]; [|discriminate].
  destruct Hx as [->|Hx]; [now left | right; now apply IH].
Qed.

Lemma contains_chars (s k : string) (x : ascii) :
  contains s k = true -> In x (list_ascii_of_string k) -> In x (list_ascii_of_string s).
Proof.
  induction s as [|c s IH]; intros H Hx.
  - destruct k; [destruct Hx | discriminate].
  - cbn [contains] in H. apply orb_true_iff in H as [H|H].
    + exact (prefix_chars _ _ _ H Hx).
    + right. now apply IH.
Qed.

Lemma contains_alpha_false (s k : string) :
  Forall (fun c => fb_alpha c = true) (list_ascii_of_string s) ->
  existsb (fun c => negb (fb_alpha c)) (list_ascii_of_string k) = true ->
  contains s k = false.
Proof.
  intros Hs Hk. destruct (contains s k) eqn:E; [|reflexivity].
  apply existsb_exists in Hk as [x [Hx Hn]].
  pose proof (contains_chars _ _ _ E Hx) as Hin.
  rewrite List.Forall_forall in Hs. rewrite (Hs x Hin) in Hn. discriminate.
Qed.

Lemma is_prefix_firstn (p k : list ascii) : is_prefix p k = true -> firstn (length p) k = p.
Proof.
  revert k; induction p as [|x p IH]; intros k H; [reflexivity|].
  destruct k as [|y k]; [discriminate|]. cbn in H |- *.
  apply andb_true_iff in H as [Hx H]. apply Ascii.eqb_eq in Hx as ->. now rewrite IH.
Qed.

Lemma straddle_fb (l k : list ascii) :
  Forall (fun c => fb_alpha c = true) l -> l <> [] -> List.last l "?"%char = "b"%char ->
  no_fb_prefix k = true -> straddle_free l k = true.
Proof.
  intros Hl Hne Hlast Hk. induction l as [|c l IH]; [reflexivity|].
  cbn [straddle_free]. apply andb_true_iff. split.
  - destruct ((length (c :: l) <? length k)%nat) eqn:Hlen; [|reflexivity].
    destruct (is_prefix (c :: l) k) eqn:Hp; [|reflexivity]. exfalso.
    apply Nat.ltb_lt in Hlen. apply is_prefix_firstn in Hp.
    unfold no_fb_prefix in Hk. rewrite forallb_forall in Hk.
    specialize (Hk (length (c :: l))). rewrite Hp in Hk.
    assert (Hin : In (length (c :: l)) (seq 1 (length k))) by (apply in_seq; cbn in *; lia).
    specialize (Hk Hin). cbn beta in Hk.
    assert (Ha : forallb fb_alpha (c :: l) = true).
    { apply forallb_forall. intros x Hx. rewrite List.Forall_forall in Hl. now apply Hl. }
    rewrite Ha, Hlast in Hk. discriminate.
  - destruct l as [|d l]; [reflexivity|]. apply IH.
    + now inversion Hl.
    + discriminate.
    + exact Hlast.
Qed.

Lemma list_to_lower (s : string) :
  list_ascii_of_string (to_lower s) = map lower_char (list_ascii_of_string s).
Proof. unfold to_lower. apply list_ascii_of_string_of_list_ascii. Qed.

Lemma to_lower_append (a b : string) : to_lower (a +:+ b) = (to_lower a +:+ to_lower b)%string.
Proof. unfold to_lower. now rewrite list_ascii_append, map_app, string_of_list_app. Qed.

Lemma is_digit_ascii (n : Z) : 0 <= n < 10 -> is_digit (ascii_of_nat (Z.to_nat (48 + n))) = true.
Proof.
  intros Hn. unfold is_digit, byte_code. rewrite nat_ascii_embedding by lia.
  rewrite Z2Nat.id by lia. apply andb_true_iff; split; apply Z.leb_le; lia.
Qed.

Lemma digits_rev_digits (f : nat) (n : Z) :
  0 <= n -> Forall (fun c => is_digit c = true) (digits_rev f n).
Proof.
  revert n; induction f as [|f IH]; intros n Hn; cbn; [constructor|].
  assert (Hd : is_digit (ascii_of_nat (Z.to_nat (48 + n mod 10))) = true)
    by (apply is_digit_ascii; apply Z.mod_pos_bound; lia).
  destruct (n <? 10); constructor; auto.
  apply IH. apply Z.div_pos; lia.
Qed.

Lemma lower_digit (c : ascii) : is_digit c = true -> lower_char c = c.
Proof.
  intros H. unfold lower_char, is_upper, is_digit in *.
  apply andb_true_iff in H as [H1 H2]. apply Z.leb_le in H1, H2.
  replace ((65 <=? byte_code c) && (byte_code c <=? 90)) with false; [reflexivity|].
  symmetry. apply andb_false_iff. left. apply Z.leb_gt. lia.
Qed.

Lemma fb_char_lower (c : ascii) : fb_char c = true -> fb_alpha (lower_char c) = true.
Proof.
  unfold fb_char. intros H. apply orb_true_iff in H as [H|H].
  - rewrite lower_digit by exact H. unfold fb_alpha. now rewrite H.
  - apply existsb_exists in H as [x [Hx Hc]]. apply Ascii.eqb_eq in Hc as ->.
    cbn in Hx. repeat (destruct Hx as [<-|Hx]; [reflexivity|]). destruct Hx.
Qed.

Lemma fmt_int_chars (n : Z) : Forall (fun c => fb_char c = true) (list_ascii_of_string (fmt_int n)).
Proof.
  assert (H : Forall (fun c => fb_char c = true)
            (rev (digits_rev (S (Z.to_nat (Z.log2 (Z.abs n)))) (Z.abs n)))).
  { apply Forall_rev. eapply Forall_impl; [apply digits_rev_digits; lia|].
    intros c Hc. unfold fb_char. now rewrite Hc. }
  unfold fmt_int. destruct (n <? 0).
  - rewrite list_ascii_append, list_ascii_of_string_of_list_ascii. cbn. now constructor.
  - now rewrite list_ascii_of_string_of_list_ascii.
Qed.

Lemma fmt_f1_chars (x : f64) : Forall (fun c => fb_char c = true) (list_ascii_of_string (fmt_f1 x)).
Proof.
  unfold fmt_f1.
  set (t := if 0 <=? f_e x then _ else _).
  assert (H : Forall (fun c => fb_char c = true)
     (list_ascii_of_string (fmt_int (t / 10) +:+ "." +:+
        String (ascii_of_nat (Z.to_nat (48 + t mod 10))) "")%string)).
  { rewrite !list_ascii_append. apply Forall_app; split; [apply fmt_int_chars|].
    cbn. constructor; [reflexivity|]. constructor; [|constructor].
    unfold fb_char. rewrite is_digit_ascii; [reflexivity|]. apply Z.mod_pos_bound; lia. }
  destruct (f_m x <? 0); [|exact H].
  rewrite list_ascii_append. cbn. now constructor.
Qed.

Lemma get_KMGTPE (n : nat) :
  fb_char (match String.get n "KMGTPE" with Some c => c | None => "?"%char end) = true.
Proof. do 6 (destruct n as [|n]; [reflexivity|]). reflexivity. Qed.

Lemma FormattedBytes_chars (b : Z) :
  Forall (fun c => fb_char c = true) (list_ascii_of_string (FormattedBytes b)) /\
  exists r, list_ascii_of_string (FormattedBytes b) = r ++ ["B"%char].
Proof.
  unfold FormattedBytes. destruct (b <? 1024).
  - rewrite list_ascii_append. split.
    + apply Forall_app; split; [apply fmt_int_chars|]. cbn. repeat constructor.
    + exists (list_ascii_of_string (fmt_int b) ++ [" "%char]). cbn.
      now rewrite <- app_assoc.
  - destruct (fb_loop _ _ _ _) as [div exp].
    rewrite !list_ascii_append. split.
    + apply Forall_app; split; [apply fmt_f1_chars|]. cbn.
      constructor; [reflexivity|]. constructor; [apply get_KMGTPE|]. repeat constructor.
    + cbn [list_ascii_of_string app].
      set (u := match String.get (Z.to_nat exp) "KMGTPE" with Some c => c | None => "?"%char end).
      exists (list_ascii_of_string (fmt_f1 (f64_div (f64_of_Z b) (f64_of_Z div))) ++ [" "%char; u]).
      now rewrite <- app_assoc.
Qed.

Lemma lower_FormattedBytes (b : Z) :
  let l := list_ascii_of_string (to_lower (FormattedBytes b)) in
  Forall (fun c => fb_alpha c = true) l /\ l <> [] /\ List.last l "?"%char = "b"%char.
Proof.
  cbn zeta. rewrite list_to_lower.
  destruct (FormattedBytes_chars b) as [Hc [r Hr]]. split; [|split].
  - apply Forall_map. eapply Forall_impl; [exact Hc|]. intros c. apply fb_char_lower.
  - rewrite Hr, map_app. destruct (map lower_char r); discriminate.
  - rewrite Hr, map_app. cbn [map]. rewrite List.last_last. reflexivity.
Qed.

Lemma keyword_facts :
  forallb (fun k =>
    negb (String.eqb k "") &&
    straddle_free (list_ascii_of_string space_prefix1) (list_ascii_of_string k) &&
    straddle_free (list_ascii_of_string space_prefix2) (list_ascii_of_string k) &&
    negb (contains space_prefix1 k) && negb (contains space_prefix2 k) &&
    no_fb_prefix (list_ascii_of_string k) &&
    (String.eqb k "404" || existsb (fun c => negb (fb_alpha c)) (list_ascii_of_string k)))
    classify_keywords = true.
Proof. vm_compute. reflexivity. Qed.

Lemma contains_space_message (x y : Z) (k : string) :
  In k classify_keywords ->
  contains (to_lower ("insufficient disk space: need " +:+ FormattedBytes x +:+
                      ", have " +:+ FormattedBytes y)) k =
  String.eqb k "404" &&
  (contains (to_lower (FormattedBytes x)) k || contains (to_lower (FormattedBytes y)) k).
Proof.
  intros Hk. pose proof keyword_facts as F. rewrite forallb_forall in F.
  specialize (F k Hk). rewrite !andb_true_iff in F.
  destruct F as [[[[[[Hne Hs1] Hs2] Hc1] Hc2] Hfb] Hal].
  assert (Hk0 : k <> ""%string)
    by (intros ->; discriminate).
  rewrite !to_lower_append.
  change (to_lower "insufficient disk space: need ") with space_prefix1.
  change (to_lower ", have ") with space_prefix2.
  destruct (lower_FormattedBytes x) as (Ax & Nx & Lx).
  destruct (lower_FormattedBytes y) as (Ay & Ny & Ly).
  rewrite contains_app_split by assumption.
  rewrite contains_app_split by (try assumption; apply straddle_fb; assumption).
  rewrite contains_app_split by assumption.
  apply negb_true_iff in Hc1, Hc2. rewrite Hc1, Hc2. cbn [orb].
  destruct (String.eqb k "404"); [reflexivity|].
  cbn [orb] in Hal. rewrite !contains_alpha_false by assumption. reflexivity.
Qed.

Lemma lower_char_eqb_4 (d : ascii) : Ascii.eqb "4" (lower_char d) = Ascii.eqb "4" d.
Proof. destruct d as [[] [] [] [] [] [] [] []]; reflexivity. Qed.

Lemma lower_char_eqb_0 (d : ascii) : Ascii.eqb "0" (lower_char d) = Ascii.eqb "0" d.
Proof. destruct d as [[] [] [] [] [] [] [] []]; reflexivity. Qed.

Lemma prefix_eqb (c : ascii) (k s : string) :
  String.prefix (String c k) s =
  match s with EmptyString => false | String d s' => Ascii.eqb c d && String.prefix k s' end.
Proof.
  destruct s as [|d s]; [reflexivity|]. cbn.
  destruct (ascii_dec c d) as [->|Hne]; [now rewrite Ascii.eqb_refl|].
  apply Ascii.eqb_neq in Hne. now rewrite Hne.
Qed.

Lemma to_lower_cons (c : ascii) (s : string) :
  to_lower (String c s) = String (lower_char c) (to_lower s).
Proof. reflexivity. Qed.

Lemma prefix_lower (k s : string) :
  (forall x, In x (list_ascii_of_string k) ->
             forall d, Ascii.eqb x (lower_char d) = Ascii.eqb x d) ->
  String.prefix k (to_lower s) = String.prefix k s.
Proof.
  revert s; induction k as [|x k IH]; intros s Hk.
  - destruct s; reflexivity.
  - destruct s as [|c s]; [reflexivity|].
    rewrite to_lower_cons, !prefix_eqb. cbn beta iota.
    rewrite (Hk x (or_introl eq_refl)), IH; [reflexivity|].
    intros y Hy. apply Hk. now right.
Qed.

Lemma contains_lower_404 (s : string) : contains (to_lower s) "404" = contains s "404".
Proof.
  induction s as [|c s IH]; [reflexivity|].
  rewrite to_lower_cons. cbn [contains]. rewrite IH. f_equal.
  rewrite <- to_lower_cons. apply prefix_lower.
  intros x Hx d. cbn in Hx.
  destruct Hx as [<-|[<-|[<-|[]]]]; auto using lower_char_eqb_4, lower_char_eqb_0.
Qed.

Lemma contains_app_l (a b k : string) : contains a k = true -> contains (a +:+ b) k = true.
Proof.
  induction a as [|c a IH]; intros H.
  - destruct k; [destruct b; reflexivity | discriminate].
  - rewrite append_cons. cbn [contains] in H |- *. apply orb_true_iff in H as [H|H].
    + apply orb_true_iff; left. rewrite <- append_cons.
      destruct (Nat.le_gt_cases (String.length k) (String.length (String c a))) as [Hle|Hgt].
      * rewrite prefix_app_long; assumption.
      * rewrite prefix_short_false in H by exact Hgt. discriminate.
    + apply orb_true_iff; right. now apply IH.
Qed.

Lemma contains_app_r (a b k : string) : contains b k = true -> contains (a +:+ b) k = true.
Proof.
  induction a as [|c a IH]; intros H; [exact H|].
  rewrite append_cons. cbn [contains]. apply orb_true_iff; right. now apply IH.
Qed.

Lemma contains_any_space_message (x y : Z) (ks : list string) :
  incl ks classify_keywords -> ~ In "404"%string ks ->
  contains_any (to_lower ("insufficient disk space: need " +:+ FormattedBytes x +:+
                          ", have " +:+ FormattedBytes y)) ks = false.
Proof.
  intros Hin Hn. unfold contains_any. apply not_true_iff_false. intros H.
  apply existsb_exists in H as [k [Hk Hc]].
  rewrite contains_space_message in Hc by (apply Hin; exact Hk).
  destruct (String.eqb_spec k "404") as [->|]; [contradiction | discriminate].
Qed.

Lemma CheckDiskSpace_text (fs : FileSystem) (path : string) (requiredBytes : Z) (m : string) :
  CheckDiskSpace fs path requiredBytes = Some (ErrText m) ->
  exists available, m = ("insufficient disk space: need " +:+ FormattedBytes requiredBytes +:+
                         ", have " +:+ FormattedBytes available)%string.
Proof.
  unfold CheckDiskSpace. destruct (contains path ":"); [discriminate|].
  destruct (Abs _ _) as [absPath|err]; [|discriminate].
  destruct (fs_stat fs absPath) as [[|]| |];
    try (intros H; discriminate H);
    (destruct (getAvailableDiskSpace _ _) as [available|err]; [|discriminate];
     destruct (available <? requiredBytes); [|discriminate];
     intros H; injection H as <-; now exists available).
Qed.

(** X13: the error that [CheckDiskSpace] returns when space is short
    ("insufficient disk space: need ..., have ...") is not recognised as
    a space error by [ClassifyError]: none of the classification keywords
    occurs in it, so it is classified as unknown (and retryable), or as
    not found when one of the formatted sizes contains "404". *)
Theorem CheckDiskSpace_shortage_classified (fs : FileSystem) (path : string)
    (requiredBytes : Z) (m : string)
    (H : CheckDiskSpace fs path requiredBytes = Some (ErrText m)) :
  ClassifyError (Some (ErrText m)) =
    Some (MkClassifiedError ErrorTypeUnknown (ErrText m) true false) \/
  (contains m "404" = true /\
   ClassifyError (Some (ErrText m)) =
     Some (MkClassifiedError ErrorTypeNotFound (ErrText m) false false)).
Proof.
  destruct (CheckDiskSpace_text _ _ _ _ H) as [available ->].
  unfold ClassifyError. cbn [err_string as_validation].
  assert (Hincl : forall ks, incl ks classify_keywords -> ~ In "404"%string ks ->
    contains_any (to_lower ("insufficient disk space: need " +:+ FormattedBytes requiredBytes +:+
                            ", have " +:+ FormattedBytes available)) ks = false)
    by (intros; now apply contains_any_space_message).
  rewrite (Hincl network_keywords), (Hincl timeout_keywords), (Hincl auth_keywords)
    by (first [intros x Hx; unfold classify_keywords; rewrite !in_app_iff; tauto
               | cbn; intuition discriminate]).
  destruct (contains_any _ notfound_keywords) eqn:Enf.
  - right. split; [|reflexivity].
    unfold contains_any in Enf. apply existsb_exists in Enf as [k [Hk Hc]].
    rewrite contains_space_message in Hc
      by (unfold classify_keywords; rewrite !in_app_iff; tauto).
    apply andb_true_iff in Hc as [Hk4 Hc]. apply String.eqb_eq in Hk4 as ->.
    rewrite !contains_lower_404 in Hc.
    apply orb_true_iff in Hc as [Hc|Hc].
    + apply contains_app_r, contains_app_l, Hc.
    + apply contains_app_r, contains_app_r, contains_app_r, Hc.
  - left. rewrite (Hincl space_keywords), (Hincl filesystem_keywords)
      by (first [intros x Hx; unfold classify_keywords; rewrite !in_app_iff; tauto
               | cbn; intuition discriminate]).
    reflexivity.
Qed.

(* ------------------------------------------------------------------ *)
(** ** Store operations on one record *)

Lemma with_transfer_lookup (m : Manager) (id id' : string) (f : Transfer -> Transfer) :
  Get (with_transfer m id f) id' =
  if String.eqb id' id then option_map f (Get m id) else Get m id'.
Proof.
  unfold with_transfer, Get. destruct (transfers m !! id) as [t|] eqn:Ht; cbn [transfers].
  - destruct (String.eqb_spec id' id) as [->|Hne]; [now rewrite lookup_insert_eq|].
    rewrite lookup_insert_ne by congruence. reflexivity.
  - destruct (String.eqb_spec id' id) as [->|Hne]; [now rewrite Ht|reflexivity].
Qed.

Lemma with_transfer_order (m : Manager) (id : string) (f : Transfer -> Transfer) :
  order (with_transfer m id f) = order m.
Proof. unfold with_transfer. destruct (transfers m !! id); reflexivity. Qed.

Lemma with_transfer_missing (m : Manager) (id : string) (f : Transfer -> Transfer) :
  Get m id = None -> with_transfer m id f = m.
Proof. unfold with_transfer, Get. intros ->. reflexivity. Qed.

(** X14: [Start], [Complete] and [Fail] on an id that is not in the store
    leave the store unchanged: no record is created. *)
Theorem Manager_ops_missing_id (m : Manager) (id : string) (now : Z) (err : option error)
    (H : Get m id = None) :
  Start m id now = m /\ Complete m id now = m /\ Fail m id err now = m.
Proof.
  unfold Start, Complete, Fail.
  repeat split; apply with_transfer_missing, H.
Qed.

Lemma Manager_ops_missing_id_witness :
  let m := fst (Add NewManager "a" "s" "d") in
  Get m "b" = None /\
  (Start m "b" 5 = m /\ Complete m "b" 5 = m /\ Fail m "b" None 5 = m).
Proof.
  intros m. split; [vm_compute; reflexivity|].
  apply Manager_ops_missing_id. vm_compute. reflexivity.
Defined.

(** X15: [Start], [Complete] and [Fail] on [id] leave every record with
    another id unchanged, and none of them changes the insertion order. *)
Theorem Manager_ops_frame (m : Manager) (id id' : string) (now : Z) (err : option error)
    (Hne : id' <> id) :
  Get (Start m id now) id' = Get m id' /\
  Get (Complete m id now) id' = Get m id' /\
  Get (Fail m id err now) id' = Get m id' /\
  order (Start m id now) = order m /\
  order (Complete m id now) = order m /\
  order (Fail m id err now) = order m.
Proof.
  unfold Start, Complete, Fail.
  rewrite !with_transfer_lookup, !with_transfer_order.
  apply String.eqb_neq in Hne. rewrite Hne.
  repeat split.
Qed.

Lemma Manager_ops_frame_witness :
  let m := fst (Add (fst (Add NewManager "a" "s" "d")) "b" "s2" "d2") in
  "b"%string <> "a"%string /\
  Get (Complete m "a" 9) "b" = Get m "b".
Proof.
  intros m. split; [discriminate|].
  apply (Manager_ops_frame m "a" "b" 9 None). discriminate.
Defined.

(** X16: for a record in the store, [Start] at clock [t1] followed by
    [Complete] at [t2] leaves it Completed with progress 100, and followed
    by [Fail] at [t2] leaves it Failed with the given error and its
    progress kept; in both cases, for nonzero clock readings, its
    [Duration] is [t2 - t1] at any later time. *)
Theorem Start_then_finish_Duration (m : Manager) (id : string) (t : Transfer)
    (t1 t2 now : Z) (err : option error)
    (H : Get m id = Some t) (H1 : t1 <> 0) (H2 : t2 <> 0) :
  (exists t', Get (Complete (Start m id t1) id t2) id = Some t' /\
     Status t' = StatusCompleted /\ Progress t' = f64_of_Z 100 /\
     Duration t' now = t2 - t1) /\
  (exists t', Get (Fail (Start m id t1) id err t2) id = Some t' /\
     Status t' = StatusFailed /\ Error t' = err /\ Progress t' = Progress t /\
     Duration t' now = t2 - t1).
Proof.
  unfold Start, Complete, Fail.
  rewrite !with_transfer_lookup, String.eqb_refl, H.
  unfold Duration.
  split; eexists; (split; [reflexivity|]); cbn [StartTime EndTime Status Progress Error];
    rewrite (proj2 (Z.eqb_neq t1 0) H1), (proj2 (Z.eqb_neq t2 0) H2);
    repeat split.
Qed.

Lemma Start_then_finish_Duration_witness :
  let m := fst (Add NewManager "a" "s" "d") in
  Get m "a" = Some (new_transfer "a" "s" "d") /\
  ((exists t', Get (Complete (Start m "a" 10) "a" 25) "a" = Some t' /\
     Status t' = StatusCompleted /\ Progress t' = f64_of_Z 100 /\
     Duration t' 100 = 15) /\
   (exists t', Get (Fail (Start m "a" 10) "a" None 25) "a" = Some t' /\
     Status t' = StatusFailed /\ Error t' = None /\
     Progress t' = Progress (new_transfer "a" "s" "d") /\
     Duration t' 100 = 15)).
Proof.
  intros m. split; [vm_compute; reflexivity|].
  apply (Start_then_finish_Duration m "a" (new_transfer "a" "s" "d") 10 25 100 None);
    [vm_compute; reflexivity|lia|lia].
Defined.

Lemma stats_total_count (s : status) (c : Z * Z * Z * Z) :
  stats_total (count_status s c) = stats_total c + (if known_status s then 1 else 0).
Proof.
  destruct c as [[[p i] co] f]. unfold count_status, known_status.
  destruct (String.eqb s StatusPending), (String.eqb s StatusInProgress),
    (String.eqb s StatusCompleted), (String.eqb s StatusFailed); cbn; lia.
Qed.

Lemma stats_total_known (ts : gmap string Transfer) :
  stats_total (stats_of ts) =
    Z.of_nat (size (filter (fun kt : string * Transfer => known_status (Status kt.2) = true) ts)).
Proof.
  induction ts as [|id t ts Hnone IH] using map_ind.
  - unfold stats_of. rewrite map_fold_empty, map_filter_empty, map_size_empty. reflexivity.
  - rewrite stats_of_insert, (delete_id ts id Hnone), stats_total_count, IH.
    destruct (known_status (Status t)) eqn:Hk.
    + rewrite map_filter_insert_True by exact Hk.
      rewrite map_size_insert_None; [lia|].
      apply map_lookup_filter_None_2. left. exact Hnone.
    + rewrite map_filter_insert_False by (cbn; rewrite Hk; discriminate).
      rewrite (delete_id ts id Hnone). lia.
Qed.

(** X17: the four counts of [Stats] add up to the number of records whose
    status is one of the four constants: each such record is counted
    once, and a record with any other status string by none of the four
    counters. *)
Theorem Stats_total (m : Manager) :
  stats_total (Stats m) =
    Z.of_nat (size (filter (fun kt : string * Transfer => known_status (Status kt.2) = true)
                      (transfers m))).
Proof. apply stats_total_known. Qed.

(** A record whose [Status] is not one of the four constants, as code
    holding the [*Transfer] returned by [Add] can set it, is counted by
    none of the four counters of [Stats]. *)
Lemma Stats_unknown_status :
  let t := MkTransfer "a" "s" "d" "paused" (f64_of_Z 0) 0 0 0 0 None in
  size (transfers (MkManager {[ "a" := t ]} ["a"])) = 1%nat /\
  Stats (MkManager {[ "a" := t ]} ["a"]) = (0, 0, 0, 0).
Proof. vm_compute. split; reflexivity. Qed.

(** X28: [Add], [Start], [UpdateProgress], [Complete] and [Fail] keep
    every record's status one of the four constants; on such a store the
    four counts of [Stats] add up to the number of records. *)
Theorem Manager_ops_known_status (m : Manager) (H : known_statuses (transfers m)) :
  (forall id src dst, known_statuses (transfers (fst (Add m id src dst)))) /\
  (forall id now, known_statuses (transfers (Start m id now))) /\
  (forall id p c b, known_statuses (transfers (UpdateProgress m id p c b))) /\
  (forall id now, known_statuses (transfers (Complete m id now))) /\
  (forall id err now, known_statuses (transfers (Fail m id err now))) /\
  stats_total (Stats m) = Z.of_nat (size (transfers m)).
Proof.
  unfold known_statuses in *.
  repeat split; intros;
    try (unfold Start, UpdateProgress, Complete, Fail, with_transfer;
         destruct (transfers m !! id) as [t|] eqn:Ht; [|exact H]);
    try (cbn [Add fst transfers]);
    try (apply map_Forall_insert_2; [|exact H]; try reflexivity; apply (H id t Ht)).
  unfold Stats. rewrite stats_total_known, map_filter_id; [reflexivity|].
  intros i x Hx. exact (H i x Hx).
Qed.

Lemma Manager_ops_known_status_witness :
  let m := fst (Add NewManager "a" "s" "d") in
  known_statuses (transfers m) /\
  known_statuses (transfers (Complete (Start m "a" 1) "a" 2)) /\
  stats_total (Stats m) = Z.of_nat (size (transfers m)).
Proof.
  intros m.
  assert (H : known_statuses (transfers m)).
  { apply map_Forall_insert_2; [reflexivity|apply map_Forall_empty]. }
  destruct (Manager_ops_known_status m H) as (_ & Hs & _ & _ & _ & Ht).
  split; [exact H|]. split; [|exact Ht].
  destruct (Manager_ops_known_status (Start m "a" 1) (Hs "a" 1)) as (_ & _ & _ & Hc & _).
  apply Hc.
Defined.

(* ------------------------------------------------------------------ *)
(** ** Adding fresh ids *)

Lemma add_all_cons (m : Manager) (id src dst : string) (l : list (string * string * string)) :
  add_all m ((id, src, dst) :: l) = add_all (fst (Add m id src dst)) l.
Proof. reflexivity. Qed.

Lemma add_all_order (l : list (string * string * string)) :
  forall m, order (add_all m l) = order m ++ add_ids l.
Proof.
  induction l as [|[[id src] dst] l IH]; intros m; [now rewrite app_nil_r|].
  rewrite add_all_cons, IH. cbn. now rewrite <- app_assoc.
Qed.

Lemma add_all_lookup_notin (l : list (string * string * string)) (id : string) :
  ~ In id (add_ids l) -> forall m, transfers (add_all m l) !! id = transfers m !! id.
Proof.
  induction l as [|[[id' src] dst] l IH]; intros Hn m; [reflexivity|].
  rewrite add_all_cons, IH by (intros Hi; apply Hn; now right).
  cbn. apply lookup_insert_ne. intros ->. apply Hn. now left.
Qed.

Lemma add_all_lookup (l : list (string * string * string)) :
  NoDup (add_ids l) -> forall m id src dst, In (id, src, dst) l ->
  transfers (add_all m l) !! id = Some (new_transfer id src dst).
Proof.
  induction l as [|[[id' src'] dst'] l IH]; intros Hnd m id src dst Hin; [destruct Hin|].
  cbn in Hnd. inversion Hnd as [|x xs Hnotin Hnd']. subst.
  assert (Hni : ~ In id' (add_ids l)) by (intros Hi; apply Hnotin, list_elem_of_In, Hi).
  rewrite add_all_cons. destruct Hin as [Heq|Hin].
  - injection Heq as <- <- <-.
    rewrite add_all_lookup_notin by exact Hni. apply lookup_insert_eq.
  - now apply IH.
Qed.

Lemma collect_add_ids (ts : gmap string Transfer) (l : list (string * string * string)) :
  (forall id src dst, In (id, src, dst) l -> ts !! id = Some (new_transfer id src dst)) ->
  collect ts (add_ids l) = map (fun '(id, src, dst) => new_transfer id src dst) l.
Proof.
  induction l as [|[[id src] dst] l IH]; intros H; [reflexivity|].
  change (add_ids ((id, src, dst) :: l)) with (id :: add_ids l). cbn [collect].
  rewrite (H id src dst (or_introl eq_refl)), IH; [reflexivity|].
  intros. apply H. now right.
Qed.

Lemma stats_add_all (l : list (string * string * string)) :
  NoDup (add_ids l) -> forall m, (forall id, In id (add_ids l) -> transfers m !! id = None) ->
  Stats (add_all m l) =
    let '(p, i, co, f) := Stats m in (p + Z.of_nat (length l), i, co, f).
Proof.
  induction l as [|[[id src] dst] l IH]; intros Hnd m Hfresh.
  - change (add_all m []) with m. change (Z.of_nat (length [])) with 0.
    destruct (Stats m) as [[[p i] co] f]. now rewrite Z.add_0_r.
  - cbn in Hnd. inversion Hnd as [|x xs Hnotin Hnd']. subst.
    assert (Hni : ~ In id (add_ids l)) by (intros Hi; apply Hnotin, list_elem_of_In, Hi).
    rewrite add_all_cons, IH by (try exact Hnd'; intros id' Hi; cbn;
      rewrite lookup_insert_ne by (intros ->; contradiction);
      apply Hfresh; now right).
    unfold Stats at 1. cbn [Add fst transfers].
    rewrite stats_of_insert, delete_id by (apply Hfresh; now left).
    unfold Stats. destruct (stats_of (transfers m)) as [[[p i] co] f].
    cbn [count_status new_transfer Status length]. f_equal. f_equal. f_equal. lia.
Qed.

(** X18: adding records with pairwise distinct ids to a new store makes
    [GetAll] return fresh Pending records in the order of the [Add] calls,
    and [Stats] count them all as pending. *)
Theorem GetAll_add_all (l : list (string * string * string)) (H : NoDup (add_ids l)) :
  GetAll (add_all NewManager l) = map (fun '(id, src, dst) => new_transfer id src dst) l /\
  Stats (add_all NewManager l) = (Z.of_nat (length l), 0, 0, 0).
Proof.
  split.
  - unfold GetAll. rewrite add_all_order. cbn [order NewManager app].
    apply collect_add_ids. intros. now apply add_all_lookup.
  - rewrite stats_add_all by (auto; intros; apply lookup_empty). reflexivity.
Qed.

Lemma GetAll_add_all_witness :
  NoDup (add_ids [("a", "s1", "d1"); ("b", "s2", "d2")]) /\
  GetAll (add_all NewManager [("a", "s1", "d1"); ("b", "s2", "d2")]) =
    [new_transfer "a" "s1" "d1"; new_transfer "b" "s2" "d2"] /\
  Stats (add_all NewManager [("a", "s1", "d1"); ("b", "s2", "d2")]) = (2, 0, 0, 0).
Proof.
  assert (Hnd : NoDup (add_ids [("a", "s1", "d1"); ("b", "s2", "d2")])).
  { apply (bool_decide_unpack _). vm_compute. reflexivity. }
  split; [exact Hnd|]. apply (GetAll_add_all _ Hnd).
Defined.

(* ------------------------------------------------------------------ *)
(** ** Speed of a transfer without elapsed time *)

(** X19: when a record's [Duration] is zero (never started, or finished
    at the instant it started), [Speed] is 0 and [FormattedSpeed] is
    ["0 B/s"]: no division by a zero duration happens. *)
Theorem FormattedSpeed_zero_duration (t : Transfer) (now : Z)
    (H : Duration t now = 0) :
  Speed t now = F64 0 0 /\ FormattedSpeed t now = "0 B/s"%string.
Proof.
  unfold FormattedSpeed, Speed. rewrite H.
  replace (Seconds 0) with (F64 0 0) by (vm_compute; reflexivity).
  destruct (StartTime t =? 0); split; reflexivity.
Qed.

Lemma FormattedSpeed_zero_duration_witness :
  let t := MkTransfer "a" "s" "d" StatusCompleted (f64_of_Z 100) 4096 4096 7 7 None in
  Duration t 50 = 0 /\ (Speed t 50 = F64 0 0 /\ FormattedSpeed t 50 = "0 B/s"%string).
Proof.
  intros t. split; [reflexivity|].
  apply FormattedSpeed_zero_duration. reflexivity.
Defined.

(* ------------------------------------------------------------------ *)
(** ** What [parseRcloneOutput] changes *)

Lemma progress_frame_refl (t : Transfer) : progress_frame t t.
Proof. unfold progress_frame. repeat split. Qed.

Lemma progress_frame_trans (t1 t2 t3 : Transfer) :
  progress_frame t1 t2 -> progress_frame t2 t3 -> progress_frame t1 t3.
Proof. unfold progress_frame. intuition congruence. Qed.

Lemma store_frame_refl (id : string) (m : Manager) : store_frame id m m.
Proof.
  unfold store_frame. split; [reflexivity|split; [reflexivity|]].
  destruct (Get m id); [apply progress_frame_refl|exact I].
Qed.

Lemma store_frame_trans (id : string) (m1 m2 m3 : Manager) :
  store_frame id m1 m2 -> store_frame id m2 m3 -> store_frame id m1 m3.
Proof.
  unfold store_frame. intros (Ho1 & Hg1 & Hr1) (Ho2 & Hg2 & Hr2).
  split; [congruence|split; [intros; rewrite Hg2, Hg1 by assumption; reflexivity|]].
  destruct (Get m1 id), (Get m2 id), (Get m3 id); try contradiction; auto.
  eapply progress_frame_trans; eassumption.
Qed.

Lemma store_frame_UpdateProgress (id : string) (m : Manager) (p : f64) (c t : Z) :
  store_frame id m (UpdateProgress m id p c t).
Proof.
  unfold store_frame, UpdateProgress. rewrite with_transfer_order.
  split; [reflexivity|split].
  - intros id' Hne. rewrite with_transfer_lookup.
    apply String.eqb_neq in Hne. now rewrite Hne.
  - rewrite with_transfer_lookup, String.eqb_refl.
    destruct (Get m id); [|exact I]. unfold progress_frame. cbn. repeat split.
Qed.

Lemma fold_process_frame (id : string) (ls : list string) :
  forall m, store_frame id m (fold_left (process_line id) ls m).
Proof.
  induction ls as [|x ls IH]; intros m; [apply store_frame_refl|].
  cbn [fold_left]. eapply store_frame_trans; [|apply IH].
  unfold process_line. destruct (String.eqb x ""); [apply store_frame_refl|].
  destruct (parse_line x) as [[[p c] t]|]; [apply store_frame_UpdateProgress|apply store_frame_refl].
Qed.

(** X20: [parseRcloneOutput] on any output stream for [transferID]
    changes at most the [Progress], [BytesCopied] and [BytesTotal] of the
    record [transferID]: the order, the other records, the presence of
    that record and its other fields are left as they were. *)
Theorem parseRcloneOutput_frame (rd : list (list ascii)) (transferID : string) (m : Manager) :
  store_frame transferID m (parseRcloneOutput rd transferID m).
Proof. apply fold_process_frame. Qed.

(* ------------------------------------------------------------------ *)
(** ** Letter case *)

Lemma lower_upper_char (c : ascii) : lower_char (upper_char c) = lower_char c.
Proof. destruct c as [[] [] [] [] [] [] [] []]; reflexivity. Qed.

Lemma lower_lower_char (c : ascii) : lower_char (lower_char c) = lower_char c.
Proof. destruct c as [[] [] [] [] [] [] [] []]; reflexivity. Qed.

Lemma to_lower_to_upper (s : string) : to_lower (to_upper s) = to_lower s.
Proof.
  unfold to_lower, to_upper. rewrite list_ascii_of_string_of_list_ascii, map_map.
  f_equal. apply map_ext, lower_upper_char.
Qed.

Lemma to_lower_to_lower (s : string) : to_lower (to_lower s) = to_lower s.
Proof.
  unfold to_lower. rewrite list_ascii_of_string_of_list_ascii, map_map.
  f_equal. apply map_ext, lower_lower_char.
Qed.

(** X21: on ASCII error texts [ClassifyError] ignores letter case: an
    error text upper-cased or lower-cased gets the same type, retryable
    and temporary flags as the original text. *)
Theorem ClassifyError_ignores_case (s : string) (Hascii : is_ascii s = true) :
  option_map (fun c => (ErrType c, Retryable c, Temporary c))
    (ClassifyError (Some (ErrText (to_upper s)))) =
  option_map (fun c => (ErrType c, Retryable c, Temporary c))
    (ClassifyError (Some (ErrText s))) /\
  option_map (fun c => (ErrType c, Retryable c, Temporary c))
    (ClassifyError (Some (ErrText (to_lower s)))) =
  option_map (fun c => (ErrType c, Retryable c, Temporary c))
    (ClassifyError (Some (ErrText s))).
Proof.
  unfold ClassifyError. cbn [err_string as_validation].
  rewrite to_lower_to_upper, to_lower_to_lower.
  split; repeat (destruct (contains_any _ _)); reflexivity.
Qed.

Lemma ClassifyError_ignores_case_witness :
  is_ascii "Connection Refused by peer" = true /\
  option_map (fun c => (ErrType c, Retryable c, Temporary c))
    (ClassifyError (Some (ErrText (to_upper "Connection Refused by peer")))) =
  option_map (fun c => (ErrType c, Retryable c, Temporary c))
    (ClassifyError (Some (ErrText "Connection Refused by peer"))).
Proof.
  split; [reflexivity|].
  exact (proj1 (ClassifyError_ignores_case "Connection Refused by peer" eq_refl)).
Defined.

(** X22: [parseSize] ignores the letter case of the unit: two unit
    strings equal up to case give the same byte count. *)
Theorem parseSize_unit_case (v u1 u2 : string) (H : to_upper u1 = to_upper u2) :
  parseSize v u1 = parseSize v u2.
Proof. unfold parseSize. rewrite !to_upper_trim_space, H. reflexivity. Qed.

Lemma parseSize_unit_case_witness :
  to_upper "kib" = to_upper "KiB" /\ parseSize "2" "kib" = parseSize "2" "KiB".
Proof.
  split; [vm_compute; reflexivity|].
  apply parseSize_unit_case. vm_compute. reflexivity.
Defined.

(* ------------------------------------------------------------------ *)
(** ** Retry runs that stop early *)

Section RetryPrefix.
Variable cfg : RetryConfig.
Variable ctx : Context.
Variable exec : Z -> option error.

(** [j] failing, uncancelled attempts from attempt [a] on, none of them
    the last permitted one, are called in order and each followed by one
    backoff sleep; the loop then continues from attempt [a + j] with the
    last failure as [lastErr]. *)
Lemma retry_loop_prefix (j : nat) :
  forall fuel a d l,
    (j <= fuel)%nat -> 1 <= a -> a + Z.of_nat j <= MaxAttempts cfg ->
    (forall i, a <= i < a + Z.of_nat j ->
       done_before ctx i = false /\ done_during ctx i = false /\ exec i <> None) ->
    exists d' l',
      (j = O -> l' = l) /\ ((0 < j)%nat -> l' = exec (a + Z.of_nat j - 1)) /\
      retry_loop cfg ctx exec fuel a d l =
        MkRetryRun (run_result (retry_loop cfg ctx exec (fuel - j) (a + Z.of_nat j) d' l'))
          (map Z.of_nat (seq (Z.to_nat a) j) ++
             run_calls (retry_loop cfg ctx exec (fuel - j) (a + Z.of_nat j) d' l'))
          (backoff cfg j d ++
             run_sleeps (retry_loop cfg ctx exec (fuel - j) (a + Z.of_nat j) d' l')).
Proof.
  induction j as [|j IH]; intros fuel a d l Hf Ha Hmax Hi.
  - exists d, l. split; [auto|split; [lia|]].
    rewrite Nat.sub_0_r, Z.add_0_r. cbn [seq map backoff app].
    destruct (retry_loop cfg ctx exec fuel a d l); reflexivity.
  - destruct fuel as [|fuel]; [lia|].
    destruct (Hi a) as (Hb & Hd & He); [lia|].
    destruct (exec a) as [e|] eqn:Hea; [|contradiction].
    destruct (IH fuel (a + 1) (next_delay cfg d) (Some e)) as (d' & l' & Hl0 & Hl1 & Heq);
      [lia|lia|lia|intros i Hr; apply Hi; lia|].
    exists d', l'. split; [discriminate|split].
    + intros _. destruct j as [|j].
      * rewrite Hl0 by reflexivity. rewrite <- Hea. f_equal. lia.
      * rewrite Hl1 by lia. f_equal. lia.
    + simpl retry_loop.
      replace (a <=? MaxAttempts cfg) with true by (symmetry; apply Z.leb_le; lia).
      rewrite Hb. cbn [negb]. rewrite Hea.
      replace (a =? MaxAttempts cfg) with false by (symmetry; apply Z.eqb_neq; lia).
      rewrite Hd, Heq. unfold run_cons. cbn [run_result run_calls run_sleeps].
      replace (a + 1 + Z.of_nat j) with (a + Z.of_nat (S j)) by lia.
      assert (Hs : seq (Z.to_nat a) (S j) = Z.to_nat a :: seq (Z.to_nat (a + 1)) j)
        by (replace (Z.to_nat (a + 1)) with (S (Z.to_nat a)) by lia; reflexivity).
      rewrite Hs. cbn [map backoff app]. rewrite Z2Nat.id by lia. reflexivity.
Qed.
End RetryPrefix.

Lemma validate_MaxAttempts (cfg0 : RetryConfig) : 1 <= MaxAttempts (validate cfg0).
Proof. unfold validate. cbn. destruct (Z.leb_spec (MaxAttempts cfg0) 0); lia. Qed.

(** X23: if attempts [1 .. k-1] fail, attempt [k] (within the validated
    [MaxAttempts]) succeeds and the context is not cancelled meanwhile,
    [ExecuteWithRetry] returns success after calling attempts [1 .. k],
    sleeping the first [k - 1] backoff delays from the initial delay. *)
Theorem ExecuteWithRetry_success_at (cfg0 : RetryConfig) (ctx : Context)
    (exec : Z -> option error) (k : Z)
    (Hk : 1 <= k <= MaxAttempts (validate cfg0))
    (Hbefore : forall i, 1 <= i <= k -> done_before ctx i = false)
    (Hduring : forall i, 1 <= i < k -> done_during ctx i = false)
    (Hfail : forall i, 1 <= i < k -> exec i <> None)
    (Hok : exec k = None) :
  ExecuteWithRetry cfg0 ctx exec =
    MkRetryRun None (map Z.of_nat (seq 1 (Z.to_nat k)))
      (backoff (validate cfg0) (Z.to_nat (k - 1)) (InitialDelay (validate cfg0))).
Proof.
  unfold ExecuteWithRetry. set (cfg := validate cfg0) in *. clearbody cfg.
  destruct (retry_loop_prefix cfg ctx exec (Z.to_nat (k - 1)) (Z.to_nat (MaxAttempts cfg))
              1 (InitialDelay cfg) None) as (d' & l' & _ & _ & ->);
    [lia|lia|lia|intros i Hr; repeat split; [apply Hbefore|apply Hduring|apply Hfail]; lia|].
  replace (1 + Z.of_nat (Z.to_nat (k - 1))) with k by lia.
  replace (Z.to_nat (MaxAttempts cfg) - Z.to_nat (k - 1))%nat
    with (S (Z.to_nat (MaxAttempts cfg) - Z.to_nat k)) by lia.
  simpl retry_loop.
  replace (k <=? MaxAttempts cfg) with true by (symmetry; apply Z.leb_le; lia).
  rewrite Hbefore by lia. cbn [negb]. rewrite Hok. cbn [run_result run_calls run_sleeps].
  rewrite app_nil_r.
  replace (Z.to_nat k) with (S (Z.to_nat (k - 1))) by lia.
  rewrite seq_S, map_app. cbn [map]. do 2 f_equal. f_equal. lia.
Qed.

Lemma ExecuteWithRetry_success_at_witness :
  let cfg0 := MkRetryConfig 3 0 0 (f64_of_Z 0) in
  let exec := fun a => if a =? 2 then None else Some (ErrText "boom") in
  1 <= 2 <= MaxAttempts (validate cfg0) /\
  ExecuteWithRetry cfg0 Background exec =
    MkRetryRun None [1; 2] (backoff (validate cfg0) 1 (InitialDelay (validate cfg0))).
Proof.
  intros cfg0 exec. split; [vm_compute; split; discriminate|].
  apply (ExecuteWithRetry_success_at cfg0 Background exec 2).
  - vm_compute. split; discriminate.
  - reflexivity.
  - reflexivity.
  - intros i Hi. replace i with 1 by lia. discriminate.
  - reflexivity.
Defined.

(** X24: if attempts [1 .. k-1] fail without cancellation and the context
    is found cancelled before attempt [k] (within the validated
    [MaxAttempts]), attempt [k] is never called; the result is [ctx.Err()]
    when [k = 1], and otherwise the error
    ["context cancelled after k-1 attempts: "] wrapping the failure of
    attempt [k - 1]. *)
Theorem ExecuteWithRetry_cancelled_before (cfg0 : RetryConfig) (ctx : Context)
    (exec : Z -> option error) (k : Z)
    (Hk : 1 <= k <= MaxAttempts (validate cfg0))
    (Hctx : forall i, 1 <= i < k -> done_before ctx i = false /\ done_during ctx i = false)
    (Hfail : forall i, 1 <= i < k -> exec i <> None)
    (Hdone : done_before ctx k = true) :
  ExecuteWithRetry cfg0 ctx exec =
    MkRetryRun
      (Some (if k =? 1 then ctx_err ctx
             else errorf_attempts "context cancelled" (k - 1) (exec (k - 1))))
      (map Z.of_nat (seq 1 (Z.to_nat (k - 1))))
      (backoff (validate cfg0) (Z.to_nat (k - 1)) (InitialDelay (validate cfg0))).
Proof.
  unfold ExecuteWithRetry. set (cfg := validate cfg0) in *. clearbody cfg.
  destruct (retry_loop_prefix cfg ctx exec (Z.to_nat (k - 1)) (Z.to_nat (MaxAttempts cfg))
              1 (InitialDelay cfg) None) as (d' & l' & Hl0 & Hl1 & ->);
    [lia|lia|lia|intros i Hr; repeat split; [apply Hctx|apply Hctx|apply Hfail]; lia|].
  replace (1 + Z.of_nat (Z.to_nat (k - 1))) with k by lia.
  replace (Z.to_nat (MaxAttempts cfg) - Z.to_nat (k - 1))%nat
    with (S (Z.to_nat (MaxAttempts cfg) - Z.to_nat k)) by lia.
  simpl retry_loop.
  replace (k <=? MaxAttempts cfg) with true by (symmetry; apply Z.leb_le; lia).
  rewrite Hdone. cbn [negb].
  destruct (Z.eqb_spec k 1) as [->|Hne].
  - rewrite Hl0 by reflexivity. reflexivity.
  - rewrite Hl1 by lia.
    replace (1 + Z.of_nat (Z.to_nat (k - 1)) - 1) with (k - 1) by lia.
    destruct (exec (k - 1)) as [e|] eqn:He; [|exfalso; apply (Hfail (k - 1)); [lia|exact He]].
    cbn [run_result run_calls run_sleeps]. rewrite !app_nil_r. reflexivity.
Qed.

Lemma ExecuteWithRetry_cancelled_before_witness :
  let cfg0 := MkRetryConfig 3 0 0 (f64_of_Z 0) in
  let ctx := MkContext (fun a => a =? 2) (fun _ => false) (ErrText "context canceled") in
  let exec := fun (_ : Z) => Some (ErrText "boom") in
  1 <= 2 <= MaxAttempts (validate cfg0) /\
  ExecuteWithRetry cfg0 ctx exec =
    MkRetryRun (Some (errorf_attempts "context cancelled" 1 (Some (ErrText "boom")))) [1]
      (backoff (validate cfg0) 1 (InitialDelay (validate cfg0))).
Proof.
  intros cfg0 ctx exec. split; [vm_compute; split; discriminate|].
  apply (ExecuteWithRetry_cancelled_before cfg0 ctx exec 2).
  - vm_compute. split; discriminate.
  - intros i Hi. replace i with 1 by lia. split; reflexivity.
  - intros i Hi. discriminate.
  - reflexivity.
Defined.

(** X25: if attempts [1 .. k-1] fail without cancellation, attempt [k]
    (before the last permitted one) fails with [e] and the context is
    cancelled during the backoff that follows, [ExecuteWithRetry] stops
    after calling attempts [1 .. k] with the error
    ["context cancelled after k attempts: "] wrapping [e]; the backoff
    after attempt [k] is not slept. *)
Theorem ExecuteWithRetry_cancelled_during (cfg0 : RetryConfig) (ctx : Context)
    (exec : Z -> option error) (k : Z) (e : error)
    (Hk : 1 <= k < MaxAttempts (validate cfg0))
    (Hbefore : forall i, 1 <= i <= k -> done_before ctx i = false)
    (Hduring : forall i, 1 <= i < k -> done_during ctx i = false)
    (Hfail : forall i, 1 <= i < k -> exec i <> None)
    (He : exec k = Some e) (Hdone : done_during ctx k = true) :
  ExecuteWithRetry cfg0 ctx exec =
    MkRetryRun (Some (errorf_attempts "context cancelled" k (Some e)))
      (map Z.of_nat (seq 1 (Z.to_nat k)))
      (backoff (validate cfg0) (Z.to_nat (k - 1)) (InitialDelay (validate cfg0))).
Proof.
  unfold ExecuteWithRetry. set (cfg := validate cfg0) in *. clearbody cfg.
  destruct (retry_loop_prefix cfg ctx exec (Z.to_nat (k - 1)) (Z.to_nat (MaxAttempts cfg))
              1 (InitialDelay cfg) None) as (d' & l' & _ & _ & ->);
    [lia|lia|lia|intros i Hr; repeat split; [apply Hbefore|apply Hduring|apply Hfail]; lia|].
  replace (1 + Z.of_nat (Z.to_nat (k - 1))) with k by lia.
  replace (Z.to_nat (MaxAttempts cfg) - Z.to_nat (k - 1))%nat
    with (S (Z.to_nat (MaxAttempts cfg) - Z.to_nat k)) by lia.
  simpl retry_loop.
  replace (k <=? MaxAttempts cfg) with true by (symmetry; apply Z.leb_le; lia).
  rewrite Hbefore by lia. cbn [negb]. rewrite He.
  replace (k =? MaxAttempts cfg) with false by (symmetry; apply Z.eqb_neq; lia).
  rewrite Hdone. cbn [run_result run_calls run_sleeps]. rewrite app_nil_r.
  replace (Z.to_nat k) with (S (Z.to_nat (k - 1))) by lia.
  rewrite seq_S, map_app. cbn [map]. do 2 f_equal. f_equal. lia.
Qed.

Lemma ExecuteWithRetry_cancelled_during_witness :
  let cfg0 := MkRetryConfig 3 0 0 (f64_of_Z 0) in
  let ctx := MkContext (fun _ => false) (fun a => a =? 2) (ErrText "context canceled") in
  let exec := fun (_ : Z) => Some (ErrText "boom") in
  1 <= 2 < MaxAttempts (validate cfg0) /\
  ExecuteWithRetry cfg0 ctx exec =
    MkRetryRun (Some (errorf_attempts "context cancelled" 2 (Some (ErrText "boom")))) [1; 2]
      (backoff (validate cfg0) 1 (InitialDelay (validate cfg0))).
Proof.
  intros cfg0 ctx exec. split; [vm_compute; split; [discriminate|reflexivity]|].
  apply (ExecuteWithRetry_cancelled_during cfg0 ctx exec 2 (ErrText "boom")).
  - vm_compute. split; [discriminate|reflexivity].
  - reflexivity.
  - intros i Hi. replace i with 1 by lia. reflexivity.
  - intros i Hi. discriminate.
  - reflexivity.
  - reflexivity.
Defined.

(* ------------------------------------------------------------------ *)
(** ** The unit of [FormattedBytes] *)

Lemma fb_loop_spec (j : nat) :
  forall fuel n div exp, (j <= fuel)%nat -> 1024 ^ Z.of_nat j <= n < 1024 ^ (Z.of_nat j + 1) ->
  fb_loop fuel n div exp = (div * 1024 ^ Z.of_nat j, exp + Z.of_nat j).
Proof.
  induction j as [|j IH]; intros fuel n div exp Hf Hn.
  - cbn in Hn. destruct fuel as [|fuel]; cbn [fb_loop].
    + f_equal; lia.
    + replace (1024 <=? n) with false by (symmetry; apply Z.leb_gt; lia). f_equal; lia.
  - destruct fuel as [|fuel]; [lia|]. cbn [fb_loop].
    assert (Hp : 0 < 1024 ^ Z.of_nat j) by (apply Z.pow_pos_nonneg; lia).
    assert (E1 : 1024 ^ Z.of_nat (S j) = 1024 ^ Z.of_nat j * 1024)
      by (rewrite Nat2Z.inj_succ, Z.pow_succ_r by lia; ring).
    assert (E2 : 1024 ^ (Z.of_nat (S j) + 1) = 1024 ^ Z.of_nat j * 1024 * 1024)
      by (rewrite Z.pow_add_r, E1 by lia; ring).
    assert (E3 : 1024 ^ (Z.of_nat j + 1) = 1024 ^ Z.of_nat j * 1024)
      by (rewrite Z.pow_add_r by lia; ring).
    rewrite E1, E2 in Hn. rewrite E1.
    replace (1024 <=? n) with true by (symmetry; apply Z.leb_le; nia).
    rewrite IH; [f_equal; [ring|lia]|lia|].
    rewrite E3. split; [apply Z.div_le_lower_bound|apply Z.div_lt_upper_bound]; nia.
Qed.

(** X26: a byte count [b] with [1024^(e+1) <= b < 1024^(e+2)], [e <= 5],
    is rendered by [FormattedBytes] as [b / 1024^(e+1)] with one decimal,
    a space and the [e]-th unit of [KB, MB, GB, TB, PB, EB]. *)
Theorem FormattedBytes_unit (b : Z) (e : nat) (He : (e <= 5)%nat)
    (Hb : 1024 ^ (Z.of_nat e + 1) <= b < 1024 ^ (Z.of_nat e + 2)) :
  FormattedBytes b =
    (fmt_f1 (f64_div (f64_of_Z b) (f64_of_Z (1024 ^ (Z.of_nat e + 1)))) +:+ " " +:+
     String (nth e (list_ascii_of_string "KMGTPE") "?"%char) "B")%string.
Proof.
  assert (Hp : 0 < 1024 ^ Z.of_nat e) by (apply Z.pow_pos_nonneg; lia).
  assert (E1 : 1024 ^ (Z.of_nat e + 1) = 1024 ^ Z.of_nat e * 1024)
    by (rewrite Z.pow_add_r by lia; ring).
  assert (E2 : 1024 ^ (Z.of_nat e + 2) = 1024 ^ Z.of_nat e * 1024 * 1024)
    by (rewrite Z.pow_add_r by lia; ring).
  rewrite E1, E2 in Hb. rewrite E1.
  assert (Hlog : 10 <= Z.log2 b)
    by (change 10 with (Z.log2 1024); apply Z.log2_le_mono; nia).
  unfold FormattedBytes.
  replace (b <? 1024) with false by (symmetry; apply Z.ltb_ge; nia).
  rewrite (fb_loop_spec e); [|lia|rewrite E1; split;
    [apply Z.div_le_lower_bound|apply Z.div_lt_upper_bound]; nia].
  rewrite Z.add_0_l, Nat2Z.id.
  replace (1024 * 1024 ^ Z.of_nat e) with (1024 ^ Z.of_nat e * 1024) by ring.
  do 6 (destruct e as [|e]; [reflexivity|]). lia.
Qed.

Lemma FormattedBytes_unit_witness :
  (1 <= 5)%nat /\ 1024 ^ (Z.of_nat 1 + 1) <= 3145728 < 1024 ^ (Z.of_nat 1 + 2) /\
  FormattedBytes 3145728 = "3.0 MB"%string.
Proof.
  split; [lia|split; [vm_compute; split; [discriminate|reflexivity]|]].
  rewrite (FormattedBytes_unit 3145728 1); [vm_compute; reflexivity|lia|].
  vm_compute. split; [discriminate|reflexivity].
Defined.

(* ------------------------------------------------------------------ *)
(** ** Instances of the properties of the helper functions *)

Lemma SplitRemotePath_JoinRemotePath_witness :
  "gdrive"%string <> ""%string /\ contains "gdrive" ":" = false /\
  (SplitRemotePath (JoinRemotePath "gdrive" "a/b") = ("gdrive"%string, "a/b"%string) /\
   IsRemotePath (JoinRemotePath "gdrive" "a/b") = true).
Proof.
  split; [discriminate|split; [reflexivity|]].
  apply SplitRemotePath_JoinRemotePath; [discriminate|reflexivity].
Defined.

Lemma ListFiles_output_witness :
  ListFiles (fun _ => ROk (lines_output ["a.txt"; "  "; "b.txt"])) "remote:dir" true =
    ROk ["a.txt"; ""; "b.txt"]%string.
Proof.
  rewrite (ListFiles_output ["a.txt"; "  "; "b.txt"] "remote:dir" true).
  - vm_compute. reflexivity.
  - repeat constructor.
  - repeat constructor.
  - right. split; vm_compute; reflexivity.
Defined.

Lemma ListRemotes_output_witness :
  ListRemotes (fun _ => ROk (lines_output ["gdrive:"; "s3:"])) = ROk ["gdrive"; "s3"]%string.
Proof.
  rewrite (ListRemotes_output ["gdrive:"; "s3:"]).
  - vm_compute. reflexivity.
  - repeat constructor.
  - repeat constructor.
  - right. split; vm_compute; reflexivity.
Defined.

Lemma CheckDuplicates_lookup_witness :
  let run := fun (_ : list string) => ROk (lines_output ["a.txt"; "b.txt"]) in
  ListFiles run "remote:dir" false = ROk ["a.txt"; "b.txt"]%string /\
  exists d, CheckDuplicates run "remote:dir" ["a.txt"; "c.txt"] = ROk d /\
    forall f, d !! f = if bool_decide (f ∈ ["a.txt"; "c.txt"]%string /\
                                       f ∈ ["a.txt"; "b.txt"]%string)
                       then Some true else None.
Proof.
  intros run. split; [vm_compute; reflexivity|].
  apply CheckDuplicates_lookup; [discriminate|vm_compute; reflexivity].
Defined.

Lemma formatInt_decimal_witness : 0 <= 1234 /\ formatInt 1234 = fmt_int 1234.
Proof. split; [lia|apply formatInt_decimal; lia]. Defined.

Lemma validation_errors_invalid_input_witness :
  let fs := MkFileSystem (ROk "/home") (fun _ => StatNotExist (ErrText "no such file"))
              (fun _ => ROk (0, 4096)) in
  ValidateSourcePath fs "/nope" =
    Some (ErrValidation "source" "path does not exist: /nope") /\
  ClassifyError (Some (ErrValidation "source" "path does not exist: /nope")) =
    Some (MkClassifiedError ErrorTypeInvalidInput
            (ErrValidation "source" "path does not exist: /nope") false false).
Proof.
  intros fs. split; [vm_compute; reflexivity|].
  apply (validation_errors_invalid_input fs (fun _ _ => None) "/nope" "" 0).
  left. vm_compute. reflexivity.
Defined.

Lemma ValidateDestinationPath_bare_name_witness :
  let fs := MkFileSystem (ROk "/home") (fun _ => StatNotExist (ErrText "no such file"))
              (fun _ => ROk (0, 4096)) in
  "file.txt"%string <> ""%string /\ contains "file.txt" "/" = false /\
  ValidateDestinationPath fs "file.txt" = None.
Proof.
  intros fs. split; [discriminate|split; [reflexivity|]].
  apply ValidateDestinationPath_bare_name; [discriminate|reflexivity].
Defined.

Lemma ValidateRemote_colon_timeout_witness :
  let lsf := fun (t : Z) (_ : list string) =>
               if t <? second then Some (ErrText "killed", true) else None in
  "gdrive"%string <> ""%string /\ trim_suffix "gdrive" ":" = "gdrive"%string /\
  (ValidateRemote lsf "gdrive:" 0 = ValidateRemote lsf "gdrive" 0 /\
   ValidateRemote lsf "gdrive" 0 = ValidateRemote lsf "gdrive" (10 * second)).
Proof.
  intros lsf. split; [discriminate|split; [vm_compute; reflexivity|]].
  apply (ValidateRemote_colon_timeout lsf "gdrive" 0); [discriminate|vm_compute; reflexivity].
Defined.

Lemma CheckDiskSpace_shortage_classified_witness :
  let fs := MkFileSystem (ROk "/home") (fun _ => StatOk true) (fun _ => ROk (0, 4096)) in
  let m := "insufficient disk space: need 404 B, have 0 B"%string in
  CheckDiskSpace fs "/data" 404 = Some (ErrText m) /\
  (ClassifyError (Some (ErrText m)) =
     Some (MkClassifiedError ErrorTypeUnknown (ErrText m) true false) \/
   (contains m "404" = true /\
    ClassifyError (Some (ErrText m)) =
      Some (MkClassifiedError ErrorTypeNotFound (ErrText m) false false))).
Proof.
  intros fs m. split; [vm_compute; reflexivity|].
  apply (CheckDiskSpace_shortage_classified fs "/data" 404). vm_compute. reflexivity.
Defined.

(* ------------------------------------------------------------------ *)
(** ** The error helpers *)


